(** * Apogee: the viewport line renderer

    A shallow embedding of [ts/index.ts].  The file holds three scripts,
    embedded below as the modules [Basic] (lines 1-16), [Animated]
    (lines 17-69) and [Static] (lines 70-105).  Each script runs against
    the same browser host: a window with a viewport and a density ratio, a
    document with at most one canvas element, a resize event and an
    animation frame queue.

    Numbers are exact rationals ([Q]): the rounding of IEEE doubles is
    outside the model.  The canvas keeps its [width] and [height] as the
    integers the host coerces the assigned numbers to.  Painting composites
    the default opaque stroke style over the bitmap with the coverage of
    each pixel; how a stroke covers pixels is left to the host. *)

From Stdlib Require Import QArith Qround ZArith List String Bool Lia Lqa.
Import ListNotations.
Local Open Scope Q_scope.

(** ** Execution: completions and labelled steps *)

(** The two exceptions the scripts can raise: a property access on [null]
    and a read of a [const] binding before its initialisation. *)
Inductive exn : Type :=
| TypeError
| ReferenceError.

Inductive completion (A : Type) : Type :=
| Normal (a : A)
| Throw (e : exn).
Arguments Normal {A} a.
Arguments Throw {A} e.

(** A reference held by a program variable: [null] or the host object. *)
Inductive ref : Type :=
| null
| object.

Inductive css_length : Type :=
| px (n : Q).

(** What the host delivers to the page. *)
Inductive event : Type :=
| Resize (w h : Q)
| Frame (time : Q)
| DensityChange (r : Q).

(** One label per step of an execution: reads and calls of the host
    interface, calls of and assignments in the program, deliveries by the
    host. *)
Inductive action : Type :=
| Get (property : string)
| QuerySelector (selector : string)
| GetContext (kind : string)
| SetWidth (v : Q)
| SetHeight (v : Q)
| SetStyleWidth (v : css_length)
| SetStyleHeight (v : css_length)
| Scale (x y : Q)
| ClearRect (x y w h : Q)
| BeginPath
| MoveTo (x y : Q)
| LineTo (x y : Q)
| Stroke
| AddEventListener (type : string)
| RequestAnimationFrame
| Call (f : string) (args : list Q)
| Assign (x : string) (v : Q)
| Init (x : string)
| Deliver (e : event)
| Uncaught (e : exn).

(** The result of running a computation from a world: how it completed,
    the world it left, and every step it took with the world after it.
    Side effects survive an exception, as they do in the source language. *)
Record run (W A : Type) : Type := mk_run {
  outcome : completion A;
  final : W;
  steps : list (action * W)
}.
Arguments mk_run {W A} outcome final steps.
Arguments outcome {W A} r.
Arguments final {W A} r.
Arguments steps {W A} r.

Definition M (W A : Type) : Type := W -> run W A.

Definition ret {W A} (a : A) : M W A :=
  fun w => mk_run (Normal a) w [].

Definition bind {W A B} (m : M W A) (f : A -> M W B) : M W B :=
  fun w =>
    let r := m w in
    match outcome r with
    | Normal a =>
        let r' := f a (final r) in
        mk_run (outcome r') (final r') (steps r ++ steps r')
    | Throw e => mk_run (Throw e) (final r) (steps r)
    end.

Definition throw {W A} (e : exn) : M W A :=
  fun w => mk_run (Throw e) w [].

(** A step that changes the world. *)
Definition act {W} (a : action) (f : W -> W) : M W unit :=
  fun w => mk_run (Normal tt) (f w) [(a, f w)].

(** A step that reads from the world. *)
Definition read {W A} (a : action) (f : W -> A) : M W A :=
  fun w => mk_run (Normal (f w)) w [(a, w)].

(** A read of a program variable: no host interaction, no step. *)
Definition gets {W A} (f : W -> A) : M W A :=
  fun w => mk_run (Normal (f w)) w [].

(** A call of a program function: the call is a step, then the body runs. *)
Definition call {W A} (f : string) (args : list Q) (body : M W A) : M W A :=
  bind (act (Call f args) (fun w => w)) (fun _ => body).

(** The host's treatment of an exception that reaches the top of a task:
    the task ends, the page lives on in the world the task left. *)
Definition protect {W} (m : M W unit) : M W unit :=
  fun w =>
    let r := m w in
    match outcome r with
    | Normal _ => r
    | Throw e => mk_run (Normal tt) (final r) (steps r ++ [(Uncaught e, final r)])
    end.

Declare Scope js_scope.
Delimit Scope js_scope with js.
Notation "x <- m ;; k" := (bind m (fun x => k))
  (at level 61, m at next level, right associativity) : js_scope.
Notation "m ;; k" := (bind m (fun _ => k))
  (at level 61, right associativity) : js_scope.
Local Open Scope js_scope.

(** The labels of a run, in order. *)
Definition actions {W A} (r : run W A) : list action := map fst (steps r).

(** ** The host: window, document, canvas and 2D context *)

Module Dom.

(** The transform of a 2D context: the affine map
    [(x, y) |-> (a x + c y + e, b x + d y + f)]. *)
Record Matrix : Type := mk_matrix {
  m_a : Q; m_b : Q; m_c : Q; m_d : Q; m_e : Q; m_f : Q
}.

Definition identity : Matrix := mk_matrix 1 0 0 1 0 0.

Definition uniform_scale (r : Q) : Matrix := mk_matrix r 0 0 r 0 0.

(** [ctx.scale(x, y)] multiplies the current transform by a scaling. *)
Definition scale_by (m : Matrix) (x y : Q) : Matrix :=
  mk_matrix (m_a m * x) (m_b m * x) (m_c m * y) (m_d m * y) (m_e m) (m_f m).

Definition matrix_equiv (m n : Matrix) : Prop :=
  m_a m == m_a n /\ m_b m == m_b n /\ m_c m == m_c n /\
  m_d m == m_d n /\ m_e m == m_e n /\ m_f m == m_f n.

Definition point : Type := (Q * Q)%type.

Definition apply_matrix (m : Matrix) (p : point) : point :=
  (m_a m * fst p + m_c m * snd p + m_e m,
   m_b m * fst p + m_d m * snd p + m_f m).

(** A path is a list of subpaths, each a list of points in device space:
    the points are transformed when they are added. *)
Definition path : Type := list (list point).

Fixpoint extend_path (p : path) (q : point) : path :=
  match p with
  | [] => [[q]]
  | [s] => [s ++ [q]]
  | s :: rest => s :: extend_path rest q
  end.

(** What has been painted on a bitmap since it was last reset, newest
    first; each entry keeps the transform it was painted under. *)
Inductive paint : Type :=
| Stroked (m : Matrix) (p : path)
| Cleared (m : Matrix) (x y w h : Q).

Record Context2D : Type := mk_context {
  transform : Matrix;
  current_path : path
}.

Definition default_context : Context2D := mk_context identity [].

(** The canvas element.  [context] is the 2D context of the element, [None]
    when none can be obtained from it. *)
Record Canvas : Type := mk_canvas {
  width : Q;
  height : Q;
  style_width : option css_length;
  style_height : option css_length;
  bitmap : list paint;
  context : option Context2D
}.

(** [width] and [height] are integer attributes.  The host converts the
    assigned number to an unsigned long, truncating towards zero and
    wrapping modulo 2^32, and keeps it when it is at most 2^31 - 1; it
    falls back to the default of the attribute otherwise, which is where
    -1 ends up. *)
Definition to_unsigned_long (v : Q) : Z :=
  (Z.quot (Qnum v) (Z.pos (Qden v)) mod 4294967296)%Z.

Definition reflect_dimension (default : Z) (v : Q) : Q :=
  inject_Z (if (to_unsigned_long v <=? 2147483647)%Z
            then to_unsigned_long v
            else default).

Definition default_width : Z := 300%Z.
Definition default_height : Z := 150%Z.

(** Assigning [width] or [height] replaces the bitmap by a blank one of the
    new size and resets the context to its default state, also when the
    value does not change. *)
Definition set_width (v : Q) (cv : Canvas) : Canvas :=
  mk_canvas (reflect_dimension default_width v) (height cv)
            (style_width cv) (style_height cv) []
            (option_map (fun _ => default_context) (context cv)).

Definition set_height (v : Q) (cv : Canvas) : Canvas :=
  mk_canvas (width cv) (reflect_dimension default_height v)
            (style_width cv) (style_height cv) []
            (option_map (fun _ => default_context) (context cv)).

Definition set_style_width (v : css_length) (cv : Canvas) : Canvas :=
  mk_canvas (width cv) (height cv) (Some v) (style_height cv) (bitmap cv)
            (context cv).

Definition set_style_height (v : css_length) (cv : Canvas) : Canvas :=
  mk_canvas (width cv) (height cv) (style_width cv) (Some v) (bitmap cv)
            (context cv).

Definition set_context (cx : Context2D) (cv : Canvas) : Canvas :=
  mk_canvas (width cv) (height cv) (style_width cv) (style_height cv)
            (bitmap cv) (Some cx).

Definition add_paint (p : paint) (cv : Canvas) : Canvas :=
  mk_canvas (width cv) (height cv) (style_width cv) (style_height cv)
            (p :: bitmap cv) (context cv).

Definition with_context (f : Context2D -> Canvas -> Canvas) (cv : Canvas)
  : Canvas :=
  match context cv with
  | Some cx => f cx cv
  | None => cv
  end.

(** The host as the page sees it.  [L] is the type of the functions the
    page registers as event listeners, [F] of those it requests animation
    frames for.  The page fills the viewport and has no scroll bars, so
    [window.innerWidth] and [document.documentElement.clientWidth] read the
    same viewport width, and likewise for the height. *)
Record Host (L F : Type) : Type := mk_host {
  viewport_width : Q;
  viewport_height : Q;
  devicePixelRatio : Q;
  canvas : option Canvas;
  resize_listeners : list L;
  frame_requests : list F
}.
Arguments mk_host {L F}.
Arguments viewport_width {L F} h.
Arguments viewport_height {L F} h.
Arguments devicePixelRatio {L F} h.
Arguments canvas {L F} h.
Arguments resize_listeners {L F} h.
Arguments frame_requests {L F} h.

(** A world: the host and the global variables of the script. *)
Record World (L F G : Type) : Type := mk_world {
  host : Host L F;
  globals : G
}.
Arguments mk_world {L F G}.
Arguments host {L F G} w.
Arguments globals {L F G} w.

Section Interface.
Context {L F G : Type}.
Let W : Type := World L F G.

Definition on_host (f : Host L F -> Host L F) (w : W) : W :=
  mk_world (f (host w)) (globals w).

Definition on_globals (f : G -> G) (w : W) : W :=
  mk_world (host w) (f (globals w)).

Definition on_canvas (f : Canvas -> Canvas) (h : Host L F) : Host L F :=
  mk_host (viewport_width h) (viewport_height h) (devicePixelRatio h)
          (option_map f (canvas h)) (resize_listeners h) (frame_requests h).

Definition set_viewport (w h : Q) (x : Host L F) : Host L F :=
  mk_host w h (devicePixelRatio x) (canvas x) (resize_listeners x)
          (frame_requests x).

Definition set_density (r : Q) (x : Host L F) : Host L F :=
  mk_host (viewport_width x) (viewport_height x) r (canvas x)
          (resize_listeners x) (frame_requests x).

Definition add_listener (l : L) (x : Host L F) : Host L F :=
  mk_host (viewport_width x) (viewport_height x) (devicePixelRatio x)
          (canvas x) (resize_listeners x ++ [l]) (frame_requests x).

Definition add_request (cb : F) (x : Host L F) : Host L F :=
  mk_host (viewport_width x) (viewport_height x) (devicePixelRatio x)
          (canvas x) (resize_listeners x) (frame_requests x ++ [cb]).

Definition take_requests (x : Host L F) : Host L F :=
  mk_host (viewport_width x) (viewport_height x) (devicePixelRatio x)
          (canvas x) (resize_listeners x) [].

(** *** Reads of the window and the document *)

Definition window_innerWidth : M W Q :=
  read (Get "window.innerWidth") (fun w => viewport_width (host w)).

Definition window_innerHeight : M W Q :=
  read (Get "window.innerHeight") (fun w => viewport_height (host w)).

Definition documentElement_clientWidth : M W Q :=
  read (Get "document.documentElement.clientWidth")
       (fun w => viewport_width (host w)).

Definition documentElement_clientHeight : M W Q :=
  read (Get "document.documentElement.clientHeight")
       (fun w => viewport_height (host w)).

Definition window_devicePixelRatio : M W Q :=
  read (Get "window.devicePixelRatio") (fun w => devicePixelRatio (host w)).

(** [document.querySelector(sel)]: the first matching element, or [null]. *)
Definition document_querySelector (sel : string) : M W ref :=
  read (QuerySelector sel)
       (fun w =>
          if String.eqb sel "canvas" then
            match canvas (host w) with
            | Some _ => object
            | None => null
            end
          else null).

(** [c.getContext(kind)]: a [TypeError] on [null], else the context of
    the element, or [null] when none can be obtained. *)
Definition canvas_getContext (c : ref) (kind : string) : M W ref :=
  match c with
  | null => throw TypeError
  | object =>
      read (GetContext kind)
           (fun w =>
              if String.eqb kind "2d" then
                match canvas (host w) with
                | Some cv =>
                    match context cv with
                    | Some _ => object
                    | None => null
                    end
                | None => null
                end
              else null)
  end.

(** *** Properties of the canvas element *)

Definition canvas_put (c : ref) (a : action) (f : Canvas -> Canvas)
  : M W unit :=
  match c with
  | null => throw TypeError
  | object => act a (on_host (on_canvas f))
  end.

Definition canvas_get (c : ref) (a : action) (f : Canvas -> Q) : M W Q :=
  match c with
  | null => throw TypeError
  | object =>
      read a (fun w =>
                match canvas (host w) with
                | Some cv => f cv
                | None => 0
                end)
  end.

Definition canvas_set_width (c : ref) (v : Q) : M W unit :=
  canvas_put c (SetWidth v) (set_width v).

Definition canvas_set_height (c : ref) (v : Q) : M W unit :=
  canvas_put c (SetHeight v) (set_height v).

Definition canvas_style_set_width (c : ref) (v : css_length) : M W unit :=
  canvas_put c (SetStyleWidth v) (set_style_width v).

Definition canvas_style_set_height (c : ref) (v : css_length) : M W unit :=
  canvas_put c (SetStyleHeight v) (set_style_height v).

Definition canvas_width (c : ref) : M W Q :=
  canvas_get c (Get "canvas.width") width.

Definition canvas_height (c : ref) : M W Q :=
  canvas_get c (Get "canvas.height") height.

(** *** Methods of the 2D context *)

Definition ctx_method (x : ref) (a : action)
           (f : Context2D -> Canvas -> Canvas) : M W unit :=
  match x with
  | null => throw TypeError
  | object => act a (on_host (on_canvas (with_context f)))
  end.

Definition ctx_scale (x : ref) (sx sy : Q) : M W unit :=
  ctx_method x (Scale sx sy)
    (fun cx => set_context
       (mk_context (scale_by (transform cx) sx sy) (current_path cx))).

Definition ctx_beginPath (x : ref) : M W unit :=
  ctx_method x BeginPath
    (fun cx => set_context (mk_context (transform cx) [])).

Definition ctx_moveTo (x : ref) (px py : Q) : M W unit :=
  ctx_method x (MoveTo px py)
    (fun cx => set_context
       (mk_context (transform cx)
          (current_path cx ++ [[apply_matrix (transform cx) (px, py)]]))).

Definition ctx_lineTo (x : ref) (px py : Q) : M W unit :=
  ctx_method x (LineTo px py)
    (fun cx => set_context
       (mk_context (transform cx)
          (extend_path (current_path cx)
                       (apply_matrix (transform cx) (px, py))))).

Definition ctx_stroke (x : ref) : M W unit :=
  ctx_method x Stroke
    (fun cx => add_paint (Stroked (transform cx) (current_path cx))).

Definition ctx_clearRect (x : ref) (px py w h : Q) : M W unit :=
  ctx_method x (ClearRect px py w h)
    (fun cx => add_paint (Cleared (transform cx) px py w h)).

(** *** Registration of callbacks *)

Definition addEventListener (type : string) (l : L) : M W unit :=
  act (AddEventListener type)
      (on_host (fun h => if String.eqb type "resize"
                         then add_listener l h else h)).

Definition requestAnimationFrame (cb : F) : M W unit :=
  act RequestAnimationFrame (on_host (add_request cb)).

(** *** Program variables *)

Definition assign (x : string) (v : Q) (f : G -> G) : M W unit :=
  act (Assign x v) (on_globals f).

Definition init (x : string) (f : G -> G) : M W unit :=
  act (Init x) (on_globals f).

(** *** The event loop *)

Variable listener : L -> M W unit.
Variable frame_callback : F -> Q -> M W unit.

(** Every callback is a task of its own: an exception ends that callback
    only. *)
Fixpoint each {C : Type} (cs : list C) (f : C -> M W unit) : M W unit :=
  match cs with
  | [] => ret tt
  | c :: rest => protect (f c) ;; each rest f
  end.

(** A resize notification changes the viewport, then runs the resize
    listeners.  A frame takes the callbacks requested so far and runs
    them with the frame's timestamp; callbacks requested meanwhile wait
    for the next frame.  A change of display density runs nothing. *)
Definition deliver (e : event) : M W unit :=
  match e with
  | Resize w h =>
      act (Deliver e) (on_host (set_viewport w h)) ;;
      ls <- gets (fun w => resize_listeners (host w)) ;;
      each ls listener
  | Frame t =>
      cbs <- gets (fun w => frame_requests (host w)) ;;
      act (Deliver e) (on_host take_requests) ;;
      each cbs (fun cb => frame_callback cb t)
  | DensityChange r =>
      act (Deliver e) (on_host (set_density r))
  end.

Fixpoint deliver_all (es : list event) : M W unit :=
  match es with
  | [] => ret tt
  | e :: rest => deliver e ;; deliver_all rest
  end.

(** The life of a page: the script runs to completion as one task, then
    the host delivers events. *)
Definition page (script : M W unit) (es : list event) : M W unit :=
  protect script ;; deliver_all es.

End Interface.

(** A document as the host loads it: nothing registered yet, and a canvas
    element, when there is one, of the default size. *)
Definition blank_canvas (cx : option Context2D) : Canvas :=
  mk_canvas 300 150 None None [] cx.

Definition load {L F} (w h r : Q) (cv : option Canvas) : Host L F :=
  mk_host w h r cv [] [].

(** The precondition of the scripts: the document has a canvas element and
    a 2D context can be obtained from it. *)
Definition has_context {L F} (h : Host L F) : bool :=
  match canvas h with
  | Some cv =>
      match context cv with
      | Some _ => true
      | None => false
      end
  | None => false
  end.

Definition the_transform {L F} (h : Host L F) : option Matrix :=
  match canvas h with
  | Some cv => option_map transform (context cv)
  | None => None
  end.

(** Whether a 2D context can be obtained from the canvas the document has,
    if it has one. *)
Definition usable (cv : option Canvas) : bool :=
  match cv with
  | Some c =>
      match context c with
      | Some _ => true
      | None => false
      end
  | None => false
  end.

(** What has been painted on the bitmap of the canvas, newest first. *)
Definition painted {L F} (h : Host L F) : list paint :=
  match canvas h with
  | Some cv => bitmap cv
  | None => []
  end.

End Dom.

Import Dom.

(** ** The first script (lines 1-16): resize and draw in one function *)

Module Basic.

Inductive listener_fn : Type :=
| resizeDraw_fn.

Record Globals : Type := mk_globals {
  canvas : ref;
  ctx : ref
}.

Abbreviation W := (World listener_fn Empty_set Globals).

Definition set_canvas (c : ref) (g : Globals) : Globals :=
  mk_globals c (ctx g).

Definition set_ctx (x : ref) (g : Globals) : Globals :=
  mk_globals (canvas g) x.

(** Lines 5-6 of [resizeDraw]: the canvas takes the size of the viewport. *)
Definition size_surface : M W unit :=
  c <- gets (fun w => canvas (globals w)) ;;
  cw <- documentElement_clientWidth ;;
  canvas_set_width c cw ;;
  c <- gets (fun w => canvas (globals w)) ;;
  ch <- documentElement_clientHeight ;;
  canvas_set_height c ch.

(** Lines 8-11 of [resizeDraw]: the diagonal of the canvas. *)
Definition stroke_diagonal : M W unit :=
  x <- gets (fun w => ctx (globals w)) ;;
  ctx_beginPath x ;;
  ctx_moveTo x 0 0 ;;
  c <- gets (fun w => canvas (globals w)) ;;
  cw <- canvas_width c ;;
  ch <- canvas_height c ;;
  ctx_lineTo x cw ch ;;
  ctx_stroke x.

Definition resizeDraw : M W unit :=
  size_surface ;;
  stroke_diagonal.

Definition listener (l : listener_fn) : M W unit :=
  match l with
  | resizeDraw_fn => call "resizeDraw" [] resizeDraw
  end.

Definition frame_callback (f : Empty_set) (time : Q) : M W unit :=
  match f with end.

(** The top level of the script, lines 1-16. *)
Definition script : M W unit :=
  c <- document_querySelector "canvas" ;;
  init "canvas" (set_canvas c) ;;
  c <- gets (fun w => canvas (globals w)) ;;
  x <- canvas_getContext c "2d" ;;
  init "ctx" (set_ctx x) ;;
  addEventListener "resize" resizeDraw_fn ;;
  call "resizeDraw" [] resizeDraw.

(** The world before the script runs: no variable holds anything yet. *)
Definition boot (h : Host listener_fn Empty_set) : W :=
  mk_world h (mk_globals null null).

Abbreviation session h es :=
  (page listener frame_callback script es (boot h)).

(** This script keeps no record of the viewport: the logical size of the
    surface is the canvas's own [width] and [height]. *)
Definition logical_size (w : W) : Q * Q :=
  match Dom.canvas (host w) with
  | Some cv => (Dom.width cv, Dom.height cv)
  | None => (0, 0)
  end.

(** What the functions of the script need to run without a fault. *)
Definition ready (w : W) : Prop :=
  canvas (globals w) = object /\
  ctx (globals w) = object /\
  has_context (host w) = true.

(** The worlds the page is in between two tasks once the script has run
    without a fault. *)
Definition stable (w : W) : Prop :=
  canvas (globals w) = object /\
  ctx (globals w) = object /\
  has_context (host w) = true /\
  resize_listeners (host w) = [resizeDraw_fn] /\
  frame_requests (host w) = [].

(** The worlds the page is in between two tasks once the script has
    faulted for want of a canvas or a context. *)
Definition faulted (w : W) : Prop :=
  ctx (globals w) = null /\ frame_requests (host w) = [].

(** The worlds the page is in between two tasks when the document has a
    canvas from which no context can be obtained: the listener was
    registered before the script faulted. *)
Definition broken (w : W) : Prop :=
  canvas (globals w) = object /\
  ctx (globals w) = null /\
  match Dom.canvas (host w) with
  | Some c => context c = None
  | None => False
  end /\
  resize_listeners (host w) = [resizeDraw_fn] /\
  frame_requests (host w) = [].

End Basic.

(** ** The second script (lines 17-69): density aware, animated *)

Module Animated.

Inductive listener_fn : Type :=
| resize_fn.

(** The two functions handed to [requestAnimationFrame]: the arrow function
    of lines 57-60 and [loop]. *)
Inductive frame_fn : Type :=
| priming_fn
| loop_fn.

(** [state.canvas], lines 21-26. *)
Record ViewportState : Type := mk_state {
  width : Q;
  height : Q
}.

(** [loop] is the one binding a function refers to before the script has
    initialised it (line 59 against line 61): it is [None] until then. *)
Record Globals : Type := mk_globals {
  canvas : ref;
  ctx : ref;
  pixelRatio : Q;
  state : ViewportState;
  prevTime : Q;
  loop_binding : option frame_fn
}.

Abbreviation W := (World listener_fn frame_fn Globals).

Definition set_canvas (c : ref) (g : Globals) : Globals :=
  mk_globals c (ctx g) (pixelRatio g) (state g) (prevTime g) (loop_binding g).

Definition set_ctx (x : ref) (g : Globals) : Globals :=
  mk_globals (canvas g) x (pixelRatio g) (state g) (prevTime g)
             (loop_binding g).

Definition set_pixelRatio (r : Q) (g : Globals) : Globals :=
  mk_globals (canvas g) (ctx g) r (state g) (prevTime g) (loop_binding g).

Definition set_state (s : ViewportState) (g : Globals) : Globals :=
  mk_globals (canvas g) (ctx g) (pixelRatio g) s (prevTime g) (loop_binding g).

Definition set_state_width (v : Q) (g : Globals) : Globals :=
  set_state (mk_state v (height (state g))) g.

Definition set_state_height (v : Q) (g : Globals) : Globals :=
  set_state (mk_state (width (state g)) v) g.

Definition set_prevTime (t : Q) (g : Globals) : Globals :=
  mk_globals (canvas g) (ctx g) (pixelRatio g) (state g) t (loop_binding g).

Definition set_loop (f : frame_fn) (g : Globals) : Globals :=
  mk_globals (canvas g) (ctx g) (pixelRatio g) (state g) (prevTime g) (Some f).

(** Lines 28-30. *)
Definition update (dt : Q) : M W unit :=
  ret tt.

(** Lines 32-39. *)
Definition draw : M W unit :=
  x <- gets (fun w => ctx (globals w)) ;;
  s <- gets (fun w => state (globals w)) ;;
  ctx_clearRect x 0 0 (width s) (height s) ;;
  ctx_beginPath x ;;
  ctx_moveTo x 0 0 ;;
  s <- gets (fun w => state (globals w)) ;;
  ctx_lineTo x (width s) (height s) ;;
  ctx_stroke x.

(** Lines 42-50. *)
Definition resize : M W unit :=
  c <- gets (fun w => canvas (globals w)) ;;
  x <- gets (fun w => ctx (globals w)) ;;
  r <- gets (fun w => pixelRatio (globals w)) ;;
  iw <- window_innerWidth ;;
  canvas_set_width c (iw * r) ;;
  ih <- window_innerHeight ;;
  canvas_set_height c (ih * r) ;;
  iw <- window_innerWidth ;;
  canvas_style_set_width c (px iw) ;;
  ih <- window_innerHeight ;;
  canvas_style_set_height c (px ih) ;;
  ctx_scale x r r ;;
  iw <- window_innerWidth ;;
  assign "state.canvas.width" iw (set_state_width iw) ;;
  ih <- window_innerHeight ;;
  assign "state.canvas.height" ih (set_state_height ih).

(** A read of the variable [loop]: a [ReferenceError] before line 61 has
    run. *)
Definition read_loop : M W frame_fn :=
  b <- gets (fun w => loop_binding (globals w)) ;;
  match b with
  | Some f => ret f
  | None => throw ReferenceError
  end.

(** Lines 57-60, the function of the first frame request. *)
Definition priming (time : Q) : M W unit :=
  assign "prevTime" time (set_prevTime time) ;;
  f <- read_loop ;;
  requestAnimationFrame f.

(** Lines 61-69. *)
Definition loop (time : Q) : M W unit :=
  p <- gets (fun w => prevTime (globals w)) ;;
  let dt := time - p in
  assign "prevTime" time (set_prevTime time) ;;
  call "update" [dt] (update dt) ;;
  call "draw" [] draw ;;
  f <- read_loop ;;
  requestAnimationFrame f.

Definition listener (l : listener_fn) : M W unit :=
  match l with
  | resize_fn => call "resize" [] resize
  end.

Definition frame_callback (f : frame_fn) (time : Q) : M W unit :=
  match f with
  | priming_fn => priming time
  | loop_fn => call "loop" [time] (loop time)
  end.

(** The top level of the script, lines 17-69. *)
Definition script : M W unit :=
  c <- document_querySelector "canvas" ;;
  init "canvas" (set_canvas c) ;;
  c <- gets (fun w => canvas (globals w)) ;;
  x <- canvas_getContext c "2d" ;;
  init "ctx" (set_ctx x) ;;
  r <- window_devicePixelRatio ;;
  init "pixelRatio" (set_pixelRatio r) ;;
  init "state" (set_state (mk_state 0 0)) ;;
  addEventListener "resize" resize_fn ;;
  call "resize" [] resize ;;
  init "prevTime" (set_prevTime 0) ;;
  requestAnimationFrame priming_fn ;;
  init "loop" (set_loop loop_fn).

Definition boot (h : Host listener_fn frame_fn) : W :=
  mk_world h (mk_globals null null 0 (mk_state 0 0) 0 None).

Abbreviation session h es :=
  (page listener frame_callback script es (boot h)).

Definition logical_size (w : W) : Q * Q :=
  (width (state (globals w)), height (state (globals w))).

(** What the functions of the script need to run without a fault. *)
Definition ready (w : W) : Prop :=
  canvas (globals w) = object /\
  ctx (globals w) = object /\
  has_context (host w) = true.

(** The worlds the page is in between two tasks once the script has run
    without a fault, [r] being the density ratio the script read. *)
Definition stable (r : Q) (w : W) : Prop :=
  canvas (globals w) = object /\
  ctx (globals w) = object /\
  pixelRatio (globals w) = r /\
  loop_binding (globals w) = Some loop_fn /\
  has_context (host w) = true /\
  resize_listeners (host w) = [resize_fn] /\
  (frame_requests (host w) = [priming_fn] \/
   frame_requests (host w) = [loop_fn]).

(** The two states of the Frame Driver: before the first frame, and after
    it with [p] the timestamp of the latest frame. *)
Definition priming_state (r : Q) (w : W) : Prop :=
  stable r w /\ frame_requests (host w) = [priming_fn].

Definition running_state (r p : Q) (w : W) : Prop :=
  stable r w /\ frame_requests (host w) = [loop_fn] /\
  prevTime (globals w) = p.

(** The worlds the page is in between two tasks once the script has
    faulted for want of a canvas or a context. *)
Definition faulted (w : W) : Prop :=
  ctx (globals w) = null /\ frame_requests (host w) = [].

(** The worlds the page is in between two tasks when the document has a
    canvas from which no context can be obtained: the listener was
    registered before the script faulted, no frame was requested and the
    ViewportState was never written. *)
Definition broken (r : Q) (w : W) : Prop :=
  canvas (globals w) = object /\
  ctx (globals w) = null /\
  pixelRatio (globals w) = r /\
  state (globals w) = mk_state 0 0 /\
  match Dom.canvas (host w) with
  | Some c => context c = None
  | None => False
  end /\
  resize_listeners (host w) = [resize_fn] /\
  frame_requests (host w) = [].

End Animated.

(** ** The third script (lines 70-105): density aware, drawn on resize *)

Module Static.

Inductive listener_fn : Type :=
| resizeDraw_fn.

(** [state.canvas], lines 74-79. *)
Record ViewportState : Type := mk_state {
  width : Q;
  height : Q
}.

Record Globals : Type := mk_globals {
  canvas : ref;
  ctx : ref;
  pixelRatio : Q;
  state : ViewportState
}.

Abbreviation W := (World listener_fn Empty_set Globals).

Definition set_canvas (c : ref) (g : Globals) : Globals :=
  mk_globals c (ctx g) (pixelRatio g) (state g).

Definition set_ctx (x : ref) (g : Globals) : Globals :=
  mk_globals (canvas g) x (pixelRatio g) (state g).

Definition set_pixelRatio (r : Q) (g : Globals) : Globals :=
  mk_globals (canvas g) (ctx g) r (state g).

Definition set_state (s : ViewportState) (g : Globals) : Globals :=
  mk_globals (canvas g) (ctx g) (pixelRatio g) s.

Definition set_state_width (v : Q) (g : Globals) : Globals :=
  set_state (mk_state v (height (state g))) g.

Definition set_state_height (v : Q) (g : Globals) : Globals :=
  set_state (mk_state (width (state g)) v) g.

(** Lines 81-89. *)
Definition resize : M W unit :=
  c <- gets (fun w => canvas (globals w)) ;;
  x <- gets (fun w => ctx (globals w)) ;;
  r <- gets (fun w => pixelRatio (globals w)) ;;
  iw <- window_innerWidth ;;
  canvas_set_width c (iw * r) ;;
  ih <- window_innerHeight ;;
  canvas_set_height c (ih * r) ;;
  iw <- window_innerWidth ;;
  canvas_style_set_width c (px iw) ;;
  ih <- window_innerHeight ;;
  canvas_style_set_height c (px ih) ;;
  ctx_scale x r r ;;
  iw <- window_innerWidth ;;
  assign "state.canvas.width" iw (set_state_width iw) ;;
  ih <- window_innerHeight ;;
  assign "state.canvas.height" ih (set_state_height ih).

(** Lines 91-96. *)
Definition draw : M W unit :=
  x <- gets (fun w => ctx (globals w)) ;;
  ctx_beginPath x ;;
  ctx_moveTo x 0 0 ;;
  s <- gets (fun w => state (globals w)) ;;
  ctx_lineTo x (width s) (height s) ;;
  ctx_stroke x.

(** Lines 98-101. *)
Definition resizeDraw : M W unit :=
  call "resize" [] resize ;;
  call "draw" [] draw.

Definition listener (l : listener_fn) : M W unit :=
  match l with
  | resizeDraw_fn => call "resizeDraw" [] resizeDraw
  end.

Definition frame_callback (f : Empty_set) (time : Q) : M W unit :=
  match f with end.

(** The top level of the script, lines 70-105. *)
Definition script : M W unit :=
  c <- document_querySelector "canvas" ;;
  init "canvas" (set_canvas c) ;;
  c <- gets (fun w => canvas (globals w)) ;;
  x <- canvas_getContext c "2d" ;;
  init "ctx" (set_ctx x) ;;
  r <- window_devicePixelRatio ;;
  init "pixelRatio" (set_pixelRatio r) ;;
  init "state" (set_state (mk_state 0 0)) ;;
  addEventListener "resize" resizeDraw_fn ;;
  call "resizeDraw" [] resizeDraw.

Definition boot (h : Host listener_fn Empty_set) : W :=
  mk_world h (mk_globals null null 0 (mk_state 0 0)).

Abbreviation session h es :=
  (page listener frame_callback script es (boot h)).

Definition logical_size (w : W) : Q * Q :=
  (width (state (globals w)), height (state (globals w))).

(** What the functions of the script need to run without a fault. *)
Definition ready (w : W) : Prop :=
  canvas (globals w) = object /\
  ctx (globals w) = object /\
  has_context (host w) = true.

(** The worlds the page is in between two tasks once the script has run
    without a fault, [r] being the density ratio the script read. *)
Definition stable (r : Q) (w : W) : Prop :=
  canvas (globals w) = object /\
  ctx (globals w) = object /\
  pixelRatio (globals w) = r /\
  has_context (host w) = true /\
  resize_listeners (host w) = [resizeDraw_fn] /\
  frame_requests (host w) = [].

(** The worlds the page is in between two tasks once the script has
    faulted for want of a canvas or a context. *)
Definition faulted (w : W) : Prop :=
  ctx (globals w) = null /\ frame_requests (host w) = [].

(** The worlds the page is in between two tasks when the document has a
    canvas from which no context can be obtained: the listener was
    registered before the script faulted and the ViewportState was never
    written. *)
Definition broken (r : Q) (w : W) : Prop :=
  canvas (globals w) = object /\
  ctx (globals w) = null /\
  pixelRatio (globals w) = r /\
  state (globals w) = mk_state 0 0 /\
  match Dom.canvas (host w) with
  | Some c => context c = None
  | None => False
  end /\
  resize_listeners (host w) = [resizeDraw_fn] /\
  frame_requests (host w) = [].

End Static.


(** ** Observations *)

(** The arguments with which [update] was called, in order. *)
Fixpoint update_args (acts : list action) : list Q :=
  match acts with
  | [] => []
  | Call f [dt] :: rest =>
      if String.eqb f "update" then dt :: update_args rest
      else update_args rest
  | _ :: rest => update_args rest
  end.

(** The timestamps of the frames among the events, in order. *)
Fixpoint frame_times (es : list event) : list Q :=
  match es with
  | [] => []
  | Frame t :: rest => t :: frame_times rest
  | _ :: rest => frame_times rest
  end.

(** The differences of consecutive timestamps. *)
Fixpoint deltas (ts : list Q) : list Q :=
  match ts with
  | [] => []
  | a :: rest =>
      match rest with
      | [] => []
      | b :: _ => (b - a) :: deltas rest
      end
  end.

Fixpoint increasing (ts : list Q) : Prop :=
  match ts with
  | [] => True
  | a :: rest =>
      match rest with
      | [] => True
      | b :: _ => a <= b /\ increasing rest
      end
  end.

(** The events with the changes of display density left out. *)
Fixpoint erase_density (es : list event) : list event :=
  match es with
  | [] => []
  | DensityChange _ :: rest => erase_density rest
  | e :: rest => e :: erase_density rest
  end.

Definition is_resize (e : event) : bool :=
  match e with
  | Resize _ _ => true
  | _ => false
  end.

Definition nonneg_size (s : Q * Q) : Prop :=
  0 <= fst s /\ 0 <= snd s.

Definition nonneg_viewport {L F : Type} (h : Host L F) : Prop :=
  0 <= viewport_width h /\ 0 <= viewport_height h.

Definition nonneg_event (e : event) : Prop :=
  match e with
  | Resize w h => 0 <= w /\ 0 <= h
  | _ => True
  end.

Definition resizes (es : list event) : nat :=
  List.length (filter is_resize es).

(** Along the steps of a run, at every stroke the logical size the script
    keeps ([size]) is the size delivered by the latest resize notification,
    [latest] being the size of the viewport before the first of them. *)
Fixpoint draws_follow {W : Type} (size : W -> Q * Q) (latest : Q * Q)
         (ss : list (action * W)) : Prop :=
  match ss with
  | [] => True
  | (a, x) :: rest =>
      match a with
      | Deliver (Resize w h) => draws_follow size (w, h) rest
      | Stroke => size x = latest /\ draws_follow size latest rest
      | _ => draws_follow size latest rest
      end
  end.

Definition is_call (f : string) (a : action) : bool :=
  match a with
  | Call g _ => String.eqb f g
  | _ => false
  end.

Definition count (p : action -> bool) (acts : list action) : nat :=
  List.length (filter p acts).

Definition is_query (a : action) : bool :=
  match a with
  | QuerySelector _ => true
  | _ => false
  end.

Definition is_context_request (a : action) : bool :=
  match a with
  | GetContext _ => true
  | _ => false
  end.

Definition is_stroke (a : action) : bool :=
  match a with
  | Stroke => true
  | _ => false
  end.

(** The steps that never occur once the script has faulted: no second
    query for the canvas or the context, and no stroke. *)
Definition gives_up {W : Type} (s : action * W) : Prop :=
  is_query (fst s) = false /\
  is_context_request (fst s) = false /\
  is_stroke (fst s) = false.

Definition is_density_read (a : action) : bool :=
  match a with
  | Get p => String.eqb p "window.devicePixelRatio"
  | _ => false
  end.

(** The world after each event of a list delivered from [w]. *)
Fixpoint snapshots {L F G : Type} (listener : L -> M (World L F G) unit)
         (frame_callback : F -> Q -> M (World L F G) unit)
         (es : list event) (w : World L F G) : list (event * World L F G) :=
  match es with
  | [] => []
  | e :: rest =>
      let w' := final (deliver listener frame_callback e w) in
      (e, w') :: snapshots listener frame_callback rest w'
  end.

(** For each frame among the events delivered from [w], the [dt] with which
    [update] was called in that frame, [None] when it was not called. *)
Fixpoint dt_of_each_frame {L F G : Type}
         (listener : L -> M (World L F G) unit)
         (frame_callback : F -> Q -> M (World L F G) unit)
         (es : list event) (w : World L F G) : list (option Q) :=
  match es with
  | [] => []
  | e :: rest =>
      let r := deliver listener frame_callback e w in
      match e with
      | Frame _ =>
          hd_error (update_args (actions r))
          :: dt_of_each_frame listener frame_callback rest (final r)
      | _ => dt_of_each_frame listener frame_callback rest (final r)
      end
  end.

(** What the Surface Sizer leaves behind: the resolution of the backing
    store, the displayed size, the scale transform and the logical size the
    script keeps. *)
Record SizerOutput : Type := mk_output {
  backing : Q * Q;
  displayed : option css_length * option css_length;
  scaling : option Matrix;
  viewport_state : Q * Q
}.

Definition sizer_output {L F : Type} (h : Host L F) (size : Q * Q)
  : option SizerOutput :=
  match canvas h with
  | Some cv =>
      Some (mk_output (width cv, height cv)
                      (style_width cv, style_height cv)
                      (option_map transform (context cv))
                      size)
  | None => None
  end.

(** The Sizer outputs of a session, one for each resize notification. *)
Definition outputs_at_resizes {W : Type} (view : W -> option SizerOutput)
           (snaps : list (event * W)) : list (option SizerOutput) :=
  map (fun s => view (snd s)) (filter (fun s => is_resize (fst s)) snaps).

(** The tasks that ended in an exception. *)
Definition is_fault (a : action) : bool :=
  match a with
  | Uncaught _ => true
  | _ => false
  end.

Definition is_frame_request (a : action) : bool :=
  match a with
  | RequestAnimationFrame => true
  | _ => false
  end.

Definition is_frame (e : event) : bool :=
  match e with
  | Frame _ => true
  | _ => false
  end.

(** The number of frames among the events. *)
Definition frames (es : list event) : nat :=
  List.length (frame_times es).


(** The Sizer outputs of the session of [script] from the world [w0] with
    the events [es], [size] being the logical size the script keeps. *)
Definition session_outputs {L F G : Type}
           (listener : L -> M (World L F G) unit)
           (frame_callback : F -> Q -> M (World L F G) unit)
           (size : World L F G -> Q * Q)
           (script : M (World L F G) unit) (w0 : World L F G)
           (es : list event) : list (option SizerOutput) :=
  outputs_at_resizes
    (fun w => sizer_output (host w) (size w))
    (snapshots listener frame_callback es (final (protect script w0))).

(** *** Pictures *)

Section Raster.

(** How much of a pixel a stroked path and a cleared rectangle cover, a
    number from 0 to 1, is left to the host: it depends on how the host
    samples and anti-aliases. *)
Variable stroke_coverage : Matrix -> path -> point -> Q.
Variable rect_coverage : Matrix -> Q -> Q -> Q -> Q -> point -> Q.

(** The opacity of a pixel.  The default stroke style is opaque black and
    is composited source-over: a stroke of coverage [c] over an opacity [a]
    leaves [c + a (1 - c)].  A cleared rectangle of coverage [k] leaves
    [a (1 - k)]. *)
Fixpoint alpha_at (bm : list paint) (p : point) : Q :=
  match bm with
  | [] => 0
  | Stroked m pth :: below =>
      stroke_coverage m pth p
      + alpha_at below p * (1 - stroke_coverage m pth p)
  | Cleared m x y w h :: below =>
      alpha_at below p * (1 - rect_coverage m x y w h p)
  end.

Definition same_picture (a b : option Canvas) : Prop :=
  match a, b with
  | Some ca, Some cb =>
      width ca = width cb /\ height ca = height cb /\
      forall p, alpha_at (bitmap ca) p == alpha_at (bitmap cb) p
  | None, None => True
  | _, _ => False
  end.

(** What a second stroke of the same path does to each pixel of a bitmap
    [once], giving [twice]: it is composited again, which changes nothing
    where the stroke covers a pixel wholly or not at all and adds opacity
    where it covers a pixel in part that is not opaque yet. *)
Definition restroked (m : Matrix) (pth : path) (once twice : list paint)
  : Prop :=
  forall p,
    alpha_at twice p ==
    stroke_coverage m pth p + alpha_at once p * (1 - stroke_coverage m pth p) /\
    (stroke_coverage m pth p == 0 \/ stroke_coverage m pth p == 1 ->
     alpha_at twice p == alpha_at once p) /\
    (0 < stroke_coverage m pth p -> alpha_at once p < 1 ->
     alpha_at once p < alpha_at twice p).

End Raster.

(** One way of covering pixels: four samples in each pixel, the pixel
    [(i, j)] being the unit square with that corner.  A sample lies in a
    stroke when it is within half the line width of one of its segments,
    between the ends of the segment; the line width is 1 in the units of
    the context, which the uniform scales these scripts install take to
    [m_a] pixels.  A sample lies in a rectangle when it lies in the image of
    the rectangle under the transform. *)
Definition cross (u v : point) : Q := fst u * snd v - snd u * fst v.

Definition dot (u v : point) : Q := fst u * fst v + snd u * snd v.

Definition minus (p q : point) : point := (fst p - fst q, snd p - snd q).

Definition between (lo x hi : Q) : bool := Qle_bool lo x && Qle_bool x hi.

Definition within_segment (half : Q) (a b p : point) : bool :=
  between 0 (dot (minus p a) (minus b a)) (dot (minus b a) (minus b a))
  && Qle_bool (cross (minus p a) (minus b a) * cross (minus p a) (minus b a))
              (half * half * dot (minus b a) (minus b a)).

Fixpoint within_subpath (half : Q) (s : list point) (p : point) : bool :=
  match s with
  | [] => false
  | a :: rest =>
      match rest with
      | [] => false
      | b :: _ => within_segment half a b p || within_subpath half rest p
      end
  end.

Definition within_path (half : Q) (pth : path) (p : point) : bool :=
  existsb (fun s => within_subpath half s p) pth.

Definition within_rect (m : Matrix) (x y w h : Q) (p : point) : bool :=
  let o := apply_matrix m (x, y) in
  let u := minus (apply_matrix m (x + w, y)) o in
  let v := minus (apply_matrix m (x, y + h)) o in
  (between 0 (cross (minus p o) v) (cross u v)
   && between 0 (cross u (minus p o)) (cross u v))
  || (between (cross u v) (cross (minus p o) v) 0
      && between (cross u v) (cross u (minus p o)) 0).

Definition samples (p : point) : list point :=
  [(fst p + (1 # 4), snd p + (1 # 4)); (fst p + (3 # 4), snd p + (1 # 4));
   (fst p + (1 # 4), snd p + (3 # 4)); (fst p + (3 # 4), snd p + (3 # 4))].

Definition share (inside : point -> bool) (p : point) : Q :=
  inject_Z (Z.of_nat (List.length (filter inside (samples p)))) / 4.

Definition sampled_stroke (m : Matrix) (pth : path) (p : point) : Q :=
  share (within_path (m_a m * (1 # 2)) pth) p.

Definition sampled_rect (m : Matrix) (x y w h : Q) (p : point) : Q :=
  share (within_rect m x y w h) p.

(** *** The three scripts side by side *)

Inductive variant : Type :=
| basic
| animated
| static.

(** The Sizer output of a session of a script on a display with viewport
    [vw] x [vh], density ratio [r] and canvas element [cv]. *)
Definition output_after (v : variant) (vw vh r : Q) (cv : Canvas)
           (es : list event) : option SizerOutput :=
  match v with
  | basic =>
      let w := final (Basic.session (load vw vh r (Some cv)) es) in
      sizer_output (host w) (Basic.logical_size w)
  | animated =>
      let w := final (Animated.session (load vw vh r (Some cv)) es) in
      sizer_output (host w) (Animated.logical_size w)
  | static =>
      let w := final (Static.session (load vw vh r (Some cv)) es) in
      sizer_output (host w) (Static.logical_size w)
  end.

(** The integer part of a number, which is what the canvas keeps of a
    dimension that is not negative and below 2^31. *)
Definition whole (q : Q) : Q := inject_Z (Qfloor q).

Definition fits (q : Q) : Prop :=
  0 <= q /\ (Qfloor q <= 2147483647)%Z.

(** A resize notification whose size, taken to pixels of a display of
    density ratio [r], the canvas can keep. *)
Definition fits_at (r : Q) (e : event) : Prop :=
  match e with
  | Resize a b => fits (a * r) /\ fits (b * r)
  | _ => True
  end.



(** * Facts *)

Ltac evaluate :=
  cbv -[Qmult Qplus Qminus Qopp Qle Qlt Qeq Qinv Qdiv reflect_dimension].

Section EventLoopFacts.
Context {L F G : Type}.
Variable listener : L -> M (World L F G) unit.
Variable frame_callback : F -> Q -> M (World L F G) unit.

Lemma protect_normal (m : M (World L F G) unit) w :
  outcome (protect m w) = Normal tt.
Proof.
  unfold protect. destruct (outcome (m w)) as [[]|e] eqn:E; [exact E|reflexivity].
Qed.

Lemma each_normal {C : Type} (cs : list C) (f : C -> M (World L F G) unit) w :
  outcome (each cs f w) = Normal tt.
Proof.
  revert w. induction cs as [|c cs IH]; intros w; [reflexivity|].
  cbn [each]. unfold bind. rewrite protect_normal. cbn. apply IH.
Qed.

Lemma deliver_normal e w :
  outcome (deliver listener frame_callback e w) = Normal tt.
Proof.
  destruct e; cbn; try apply each_normal; reflexivity.
Qed.

Lemma final_deliver_all_cons e es w :
  final (deliver_all listener frame_callback (e :: es) w) =
  final (deliver_all listener frame_callback es
           (final (deliver listener frame_callback e w))).
Proof.
  cbn [deliver_all]. unfold bind. rewrite deliver_normal. reflexivity.
Qed.

Lemma steps_deliver_all_cons e es w :
  steps (deliver_all listener frame_callback (e :: es) w) =
  steps (deliver listener frame_callback e w) ++
  steps (deliver_all listener frame_callback es
           (final (deliver listener frame_callback e w))).
Proof.
  cbn [deliver_all]. unfold bind. rewrite deliver_normal. reflexivity.
Qed.

Lemma final_page script es w :
  final (page listener frame_callback script es w) =
  final (deliver_all listener frame_callback es (final (protect script w))).
Proof.
  unfold page, bind. rewrite protect_normal. reflexivity.
Qed.

Lemma steps_page script es w :
  steps (page listener frame_callback script es w) =
  steps (protect script w) ++
  steps (deliver_all listener frame_callback es (final (protect script w))).
Proof.
  unfold page, bind. rewrite protect_normal. reflexivity.
Qed.

Lemma final_deliver_all_app es1 es2 w :
  final (deliver_all listener frame_callback (es1 ++ es2) w) =
  final (deliver_all listener frame_callback es2
           (final (deliver_all listener frame_callback es1 w))).
Proof.
  revert w. induction es1 as [|e es1 IH]; intros w; [reflexivity|].
  rewrite <- app_comm_cons, !final_deliver_all_cons. apply IH.
Qed.

End EventLoopFacts.


Ltac open_world w :=
  let vw := fresh "vw" in let vh := fresh "vh" in let dpr := fresh "dpr" in
  let cw := fresh "cw" in let ch := fresh "ch" in
  let sw := fresh "sw" in let sh := fresh "sh" in
  let bm := fresh "bm" in
  let ls := fresh "ls" in let fs := fresh "fs" in let g := fresh "g" in
  destruct w as [[vw vh dpr [[cw ch sw sh bm [[? ?]|]]|] ls fs] g];
  destruct g.

Section Invariants.
Context {L F G : Type}.
Variable listener : L -> M (World L F G) unit.
Variable frame_callback : F -> Q -> M (World L F G) unit.
Variable Inv : World L F G -> Prop.
Variable P : action * World L F G -> Prop.
Variable Ev : event -> Prop.
Hypothesis deliver_keeps :
  forall e w, Ev e -> Inv w ->
    Inv (final (deliver listener frame_callback e w)) /\
    Forall P (steps (deliver listener frame_callback e w)).

Lemma deliver_all_invariant es w :
  Forall Ev es -> Inv w ->
  Inv (final (deliver_all listener frame_callback es w)) /\
  Forall P (steps (deliver_all listener frame_callback es w)).
Proof.
  intros Hes. revert w. induction Hes as [|e es He Hes IH]; intros w Hw.
  - split; [exact Hw|constructor].
  - rewrite final_deliver_all_cons, steps_deliver_all_cons.
    destruct (deliver_keeps e w He Hw) as [Hi Hp].
    destruct (IH _ Hi) as [Hi' Hp'].
    split; [exact Hi'|]. apply Forall_app. split; assumption.
Qed.

Lemma page_invariant script es w :
  Forall Ev es ->
  Inv (final (protect script w)) ->
  Forall P (steps (protect script w)) ->
  Inv (final (page listener frame_callback script es w)) /\
  Forall P (steps (page listener frame_callback script es w)).
Proof.
  intros Hes Hi Hp. rewrite final_page, steps_page.
  destruct (deliver_all_invariant es _ Hes Hi) as [Hi' Hp'].
  split; [exact Hi'|]. apply Forall_app. split; assumption.
Qed.

End Invariants.

Lemma Forall_any {A : Type} (l : list A) : Forall (fun _ => True) l.
Proof. induction l; constructor; auto. Qed.

Lemma scale_identity_equiv r :
  matrix_equiv (scale_by identity r r) (uniform_scale r).
Proof. unfold matrix_equiv; cbn. repeat split; ring. Qed.

(** ** The update step *)

(** C8: for every [dt], [update dt] completes normally, takes no step and
    leaves the whole world (the ViewportState, the drawing surface, every
    other variable and the host) as it found it. *)
Theorem update_is_a_noop :
  forall (dt : Q) (w : Animated.W),
    final (Animated.update dt w) = w /\
    steps (Animated.update dt w) = [] /\
    outcome (Animated.update dt w) = Normal tt.
Proof.
  intros dt w. repeat split.
Qed.

(** ** The transform after a resize *)

Lemma animated_startup_stable vw vh r cv cx :
  context cv = Some cx ->
  Animated.stable r
    (final (protect Animated.script (Animated.boot (load vw vh r (Some cv))))).
Proof.
  destruct cv as [cw ch sw sh bm o]. cbn. intros ->.
  unfold Animated.stable. evaluate. tauto.
Qed.

Lemma animated_deliver_stable r e w :
  Animated.stable r w ->
  Animated.stable r
    (final (deliver Animated.listener Animated.frame_callback e w)).
Proof.
  open_world w; unfold Animated.stable; cbn;
    intros (-> & -> & -> & -> & Hc & -> & Hf); try discriminate.
  destruct e; [| destruct Hf as [-> | ->] |]; evaluate; tauto.
Qed.

Lemma static_startup_stable vw vh r cv cx :
  context cv = Some cx ->
  Static.stable r
    (final (protect Static.script (Static.boot (load vw vh r (Some cv))))).
Proof.
  destruct cv as [cw ch sw sh bm o]. cbn. intros ->.
  unfold Static.stable. evaluate. tauto.
Qed.

Lemma static_deliver_stable r e w :
  Static.stable r w ->
  Static.stable r
    (final (deliver Static.listener Static.frame_callback e w)).
Proof.
  open_world w; unfold Static.stable; cbn;
    intros (-> & -> & -> & Hc & -> & ->); try discriminate.
  destruct e; evaluate; tauto.
Qed.

Lemma basic_startup_stable vw vh r cv cx :
  context cv = Some cx ->
  Basic.stable
    (final (protect Basic.script (Basic.boot (load vw vh r (Some cv))))).
Proof.
  destruct cv as [cw ch sw sh bm o]. cbn. intros ->.
  unfold Basic.stable. evaluate. tauto.
Qed.

Lemma basic_deliver_stable e w :
  Basic.stable w ->
  Basic.stable (final (deliver Basic.listener Basic.frame_callback e w)).
Proof.
  open_world w; unfold Basic.stable; cbn;
    intros (-> & -> & Hc & -> & ->); try discriminate.
  destruct e; evaluate; tauto.
Qed.

Lemma animated_session_transform vw vh r cv cx es :
  context cv = Some cx ->
  the_transform
    (host (final (Animated.session (load vw vh r (Some cv)) es))) =
  Some (scale_by identity r r).
Proof.
  intros Hcx.
  refine (proj2 (proj1 (page_invariant Animated.listener Animated.frame_callback
            (fun w => Animated.stable r w /\
                      the_transform (host w) = Some (scale_by identity r r))
            (fun _ => True) (fun _ => True) _ Animated.script es _ _ _ _))).
  - intros e w _ [Hs Ht]. split; [|apply Forall_any].
    split; [apply animated_deliver_stable; exact Hs|].
    revert Hs Ht. open_world w; unfold Animated.stable; cbn;
      intros (-> & -> & -> & -> & Hc & -> & Hf) Ht; try discriminate.
    injection Ht as ->.
    destruct e; [| destruct Hf as [-> | ->] |]; reflexivity.
  - apply Forall_any.
  - split; [eapply animated_startup_stable; exact Hcx|].
    destruct cv as [cw ch sw sh bm o]. cbn in Hcx. subst o. reflexivity.
  - apply Forall_any.
Qed.

Lemma static_session_transform vw vh r cv cx es :
  context cv = Some cx ->
  the_transform
    (host (final (Static.session (load vw vh r (Some cv)) es))) =
  Some (scale_by identity r r).
Proof.
  intros Hcx.
  refine (proj2 (proj1 (page_invariant Static.listener Static.frame_callback
            (fun w => Static.stable r w /\
                      the_transform (host w) = Some (scale_by identity r r))
            (fun _ => True) (fun _ => True) _ Static.script es _ _ _ _))).
  - intros e w _ [Hs Ht]. split; [|apply Forall_any].
    split; [apply static_deliver_stable; exact Hs|].
    revert Hs Ht. open_world w; unfold Static.stable; cbn;
      intros (-> & -> & -> & Hc & -> & ->) Ht; try discriminate.
    injection Ht as ->.
    destruct e; reflexivity.
  - apply Forall_any.
  - split; [eapply static_startup_stable; exact Hcx|].
    destruct cv as [cw ch sw sh bm o]. cbn in Hcx. subst o. reflexivity.
  - apply Forall_any.
Qed.

(** C9: in the two density aware scripts the transform of the context right
    after a call of [resize] is the uniform scale by [pixelRatio], whatever
    the transform was before the call: the assignment to [canvas.width] has
    reset the context when [ctx.scale] runs.  Hence the transform is that
    scale after the script and any number of events, never a product of
    several scales. *)
Theorem resize_leaves_exactly_the_density_scale :
  (forall w : Animated.W,
     Animated.ready w ->
     exists m,
       the_transform (host (final (Animated.resize w))) = Some m /\
       matrix_equiv m (uniform_scale (Animated.pixelRatio (globals w)))) /\
  (forall w : Static.W,
     Static.ready w ->
     exists m,
       the_transform (host (final (Static.resize w))) = Some m /\
       matrix_equiv m (uniform_scale (Static.pixelRatio (globals w)))) /\
  (forall vw vh r cv cx es,
     context cv = Some cx ->
     exists m n,
       the_transform
         (host (final (Animated.session (load vw vh r (Some cv)) es))) =
       Some m /\
       the_transform
         (host (final (Static.session (load vw vh r (Some cv)) es))) =
       Some n /\
       matrix_equiv m (uniform_scale r) /\
       matrix_equiv n (uniform_scale r)).
Proof.
  split; [|split].
  - intros w. open_world w; unfold Animated.ready; cbn;
      intros (-> & -> & Hc); try discriminate.
    eexists. split; [reflexivity|]. apply scale_identity_equiv.
  - intros w. open_world w; unfold Static.ready; cbn;
      intros (-> & -> & Hc); try discriminate.
    eexists. split; [reflexivity|]. apply scale_identity_equiv.
  - intros vw vh r cv cx es Hcx.
    exists (scale_by identity r r), (scale_by identity r r).
    split; [eapply animated_session_transform; exact Hcx|].
    split; [eapply static_session_transform; exact Hcx|].
    split; apply scale_identity_equiv.
Qed.

Lemma resize_leaves_exactly_the_density_scale_witness :
  exists m,
    the_transform
      (host (final (Animated.session
                      (load 800 600 2 (Some (blank_canvas (Some default_context))))
                      [Resize 1024 768; Resize 640 480]))) = Some m /\
    matrix_equiv m (uniform_scale 2).
Proof.
  destruct (proj2 (proj2 resize_leaves_exactly_the_density_scale)
              800 600 2 (blank_canvas (Some default_context)) default_context
              [Resize 1024 768; Resize 640 480] eq_refl)
    as (m & n & Hm & Hn & Em & En).
  exists m. split; assumption.
Defined.

(** ** The Line Drawer *)

(** C3: in each of the three scripts, every run of the Line Drawer paints
    one stroke whose path is the image, under the transform in force, of
    the segment from [(0, 0)] to the logical size the script keeps (the
    ViewportState, or the canvas's own size in the first script): the
    arguments of [moveTo] and [lineTo] are [(0, 0)] and that size whatever
    the density ratio and the transform are. *)
Theorem drawn_line_endpoints :
  (forall w : Basic.W,
     Basic.ready w ->
     exists m,
       the_transform (host w) = Some m /\
       hd_error (painted (host (final (Basic.stroke_diagonal w)))) =
       Some (Stroked m [[apply_matrix m (0, 0);
                         apply_matrix m (Basic.logical_size w)]]) /\
       actions (Basic.stroke_diagonal w) =
       [BeginPath; MoveTo 0 0; Get "canvas.width"; Get "canvas.height";
        LineTo (fst (Basic.logical_size w)) (snd (Basic.logical_size w));
        Stroke]) /\
  (forall w : Animated.W,
     Animated.ready w ->
     exists m,
       the_transform (host w) = Some m /\
       hd_error (painted (host (final (Animated.draw w)))) =
       Some (Stroked m [[apply_matrix m (0, 0);
                         apply_matrix m (Animated.logical_size w)]]) /\
       actions (Animated.draw w) =
       [ClearRect 0 0 (fst (Animated.logical_size w))
                  (snd (Animated.logical_size w));
        BeginPath; MoveTo 0 0;
        LineTo (fst (Animated.logical_size w))
               (snd (Animated.logical_size w));
        Stroke]) /\
  (forall w : Static.W,
     Static.ready w ->
     exists m,
       the_transform (host w) = Some m /\
       hd_error (painted (host (final (Static.draw w)))) =
       Some (Stroked m [[apply_matrix m (0, 0);
                         apply_matrix m (Static.logical_size w)]]) /\
       actions (Static.draw w) =
       [BeginPath; MoveTo 0 0;
        LineTo (fst (Static.logical_size w)) (snd (Static.logical_size w));
        Stroke]).
Proof.
  split; [|split]; intros w.
  - open_world w; unfold Basic.ready; cbn; intros (-> & -> & Hc);
      try discriminate.
    eexists. repeat split.
  - open_world w; unfold Animated.ready; cbn; intros (-> & -> & Hc);
      try discriminate.
    eexists. repeat split.
  - open_world w; unfold Static.ready; cbn; intros (-> & -> & Hc);
      try discriminate.
    eexists. repeat split.
Qed.

Lemma drawn_line_endpoints_witness :
  exists m,
    the_transform
      (host (final (Static.session
                      (load 800 600 2 (Some (blank_canvas (Some default_context))))
                      []))) = Some m /\
    actions
      (Static.draw
         (final (Static.session
                   (load 800 600 2 (Some (blank_canvas (Some default_context))))
                   []))) =
    [BeginPath; MoveTo 0 0; LineTo 800 600; Stroke].
Proof.
  destruct (proj2 (proj2 drawn_line_endpoints)
              (final (Static.session
                        (load 800 600 2
                              (Some (blank_canvas (Some default_context))))
                        [])))
    as (m & Hm & _ & Ha).
  - repeat split.
  - exists m. split; [exact Hm | exact Ha].
Defined.

(** ** The Surface Sizer *)

Section SessionFacts.
Context {L F G : Type}.
Variable listener : L -> M (World L F G) unit.
Variable frame_callback : F -> Q -> M (World L F G) unit.

Lemma final_page_snoc script es e w :
  final (page listener frame_callback script (es ++ [e]) w) =
  final (deliver listener frame_callback e
           (final (page listener frame_callback script es w))).
Proof.
  rewrite !final_page, final_deliver_all_app, final_deliver_all_cons.
  reflexivity.
Qed.

End SessionFacts.

Lemma animated_session_stable vw vh r cv cx es :
  context cv = Some cx ->
  Animated.stable r (final (Animated.session (load vw vh r (Some cv)) es)).
Proof.
  intros Hcx.
  refine (proj1 (page_invariant Animated.listener Animated.frame_callback
            (Animated.stable r) (fun _ => True) (fun _ => True)
            _ Animated.script es _ _ _ _)).
  - intros e w _ Hs. split; [apply animated_deliver_stable; exact Hs|].
    apply Forall_any.
  - apply Forall_any.
  - eapply animated_startup_stable; exact Hcx.
  - apply Forall_any.
Qed.

Lemma static_session_stable vw vh r cv cx es :
  context cv = Some cx ->
  Static.stable r (final (Static.session (load vw vh r (Some cv)) es)).
Proof.
  intros Hcx.
  refine (proj1 (page_invariant Static.listener Static.frame_callback
            (Static.stable r) (fun _ => True) (fun _ => True)
            _ Static.script es _ _ _ _)).
  - intros e w _ Hs. split; [apply static_deliver_stable; exact Hs|].
    apply Forall_any.
  - apply Forall_any.
  - eapply static_startup_stable; exact Hcx.
  - apply Forall_any.
Qed.

(** The first script never writes the style of the canvas. *)
Lemma basic_session_style vw vh r cv cx es :
  context cv = Some cx ->
  let w := final (Basic.session (load vw vh r (Some cv)) es) in
  Basic.stable w /\
  exists c, canvas (host w) = Some c /\
            style_width c = style_width cv /\
            style_height c = style_height cv.
Proof.
  intros Hcx.
  refine (proj1 (page_invariant Basic.listener Basic.frame_callback
            (fun w => Basic.stable w /\
                      exists c, canvas (host w) = Some c /\
                                style_width c = style_width cv /\
                                style_height c = style_height cv)
            (fun _ => True) (fun _ => True)
            _ Basic.script es _ _ _ _)).
  - intros e w _ [Hs Hc]. split; [|apply Forall_any].
    split; [apply basic_deliver_stable; exact Hs|].
    revert Hs Hc. open_world w; unfold Basic.stable; cbn;
      intros (-> & -> & Hc & -> & ->) (c & Ec & Hw & Hh); try discriminate.
    injection Ec as <-. cbn in Hw, Hh.
    destruct e; eexists; (split; [reflexivity|]); split; assumption.
  - apply Forall_any.
  - split; [eapply basic_startup_stable; exact Hcx|].
    destruct cv as [cw ch sw sh bm o]. cbn in Hcx. subst o.
    eexists. split; [reflexivity|]. split; reflexivity.
  - apply Forall_any.
Qed.



Lemma output_after_basic vw vh r cv es :
  output_after basic vw vh r cv es =
  sizer_output (host (final (Basic.session (load vw vh r (Some cv)) es)))
    (Basic.logical_size (final (Basic.session (load vw vh r (Some cv)) es))).
Proof. reflexivity. Qed.

Lemma output_after_animated vw vh r cv es :
  output_after animated vw vh r cv es =
  sizer_output (host (final (Animated.session (load vw vh r (Some cv)) es)))
    (Animated.logical_size
       (final (Animated.session (load vw vh r (Some cv)) es))).
Proof. reflexivity. Qed.

Lemma output_after_static vw vh r cv es :
  output_after static vw vh r cv es =
  sizer_output (host (final (Static.session (load vw vh r (Some cv)) es)))
    (Static.logical_size (final (Static.session (load vw vh r (Some cv)) es))).
Proof. reflexivity. Qed.

Lemma reflect_fits d q :
  fits q -> reflect_dimension d q = whole q.
Proof.
  intros [H0 Hm]. destruct q as [n den].
  unfold reflect_dimension, to_unsigned_long, whole, Qfloor in *.
  cbn [Qnum Qden]. unfold Qle in H0. cbn in H0.
  assert (Hn : (0 <= n)%Z) by lia.
  rewrite (Z.quot_div_nonneg n (Z.pos den) Hn (Pos2Z.is_pos den)).
  pose proof (Z.div_pos n (Z.pos den) Hn (Pos2Z.is_pos den)) as Hd.
  rewrite Z.mod_small by lia.
  destruct (Z.leb_spec (n / Z.pos den) 2147483647) as [_|Hgt];
    [reflexivity|lia].
Qed.


Lemma animated_resize_output r w h x :
  Animated.stable r x ->
  sizer_output
    (host (final (deliver Animated.listener Animated.frame_callback
                    (Resize w h) x)))
    (Animated.logical_size
       (final (deliver Animated.listener Animated.frame_callback
                 (Resize w h) x))) =
  Some (mk_output (reflect_dimension default_width (w * r),
                   reflect_dimension default_height (h * r))
                  (Some (px w), Some (px h))
                  (Some (scale_by identity r r)) (w, h)).
Proof.
  intros Hs. open_world x; unfold Animated.stable in Hs; cbn in Hs;
    destruct Hs as (-> & -> & -> & -> & Hc & -> & Hf); try discriminate.
  reflexivity.
Qed.





(** ** The Frame Driver *)

Section StartFacts.
Context {L F G : Type}.
Variable listener : L -> M (World L F G) unit.
Variable frame_callback : F -> Q -> M (World L F G) unit.

Lemma final_page_nil script w :
  final (page listener frame_callback script [] w) =
  final (protect script w).
Proof.
  rewrite final_page. reflexivity.
Qed.

End StartFacts.

Lemma animated_startup_priming vw vh r cv cx :
  context cv = Some cx ->
  Animated.priming_state r
    (final (protect Animated.script
                    (Animated.boot (load vw vh r (Some cv))))).
Proof.
  destruct cv as [cw ch sw sh bm o]. cbn [context]. intros ->.
  unfold Animated.priming_state, Animated.stable. evaluate. tauto.
Qed.

Ltac open_priming w H :=
  open_world w; unfold Animated.priming_state, Animated.stable in H;
  cbn in H; destruct H as ((-> & -> & -> & -> & ? & -> & _) & ->);
  try discriminate.

Ltac open_running w H :=
  open_world w; unfold Animated.running_state, Animated.stable in H;
  cbn in H; destruct H as ((-> & -> & -> & -> & ? & -> & _) & -> & ->);
  try discriminate.

Lemma priming_other_event r e w :
  Animated.priming_state r w ->
  (forall t, e <> Frame t) ->
  Animated.priming_state r
    (final (deliver Animated.listener Animated.frame_callback e w)).
Proof.
  intros H He. open_priming w H.
  unfold Animated.priming_state, Animated.stable.
  destruct e as [a b|t|d]; [|destruct (He t eq_refl)|]; evaluate; tauto.
Qed.

Lemma priming_first_frame r t w :
  Animated.priming_state r w ->
  actions (deliver Animated.listener Animated.frame_callback (Frame t) w) =
  [Deliver (Frame t); Assign "prevTime" t; RequestAnimationFrame] /\
  Animated.running_state r t
    (final (deliver Animated.listener Animated.frame_callback (Frame t) w)).
Proof.
  intros H. open_priming w H.
  unfold Animated.running_state, Animated.stable. evaluate. tauto.
Qed.

Lemma running_other_event r p e w :
  Animated.running_state r p w ->
  (forall t, e <> Frame t) ->
  Animated.running_state r p
    (final (deliver Animated.listener Animated.frame_callback e w)).
Proof.
  intros H He. open_running w H.
  unfold Animated.running_state, Animated.stable.
  destruct e as [a b|t|d]; [|destruct (He t eq_refl)|]; evaluate; tauto.
Qed.

Lemma running_next_frame r p t w :
  Animated.running_state r p w ->
  update_args
    (actions (deliver Animated.listener Animated.frame_callback (Frame t) w)) =
  [t - p] /\
  Animated.running_state r t
    (final (deliver Animated.listener Animated.frame_callback (Frame t) w)).
Proof.
  intros H. open_running w H.
  unfold Animated.running_state, Animated.stable. evaluate. tauto.
Qed.

Lemma running_dts r es :
  forall p w,
    Animated.running_state r p w ->
    dt_of_each_frame Animated.listener Animated.frame_callback es w =
    map Some (deltas (p :: frame_times es)).
Proof.
  induction es as [|e es IH]; intros p w H; [reflexivity|].
  destruct e as [a b|t|d].
  - cbn [dt_of_each_frame frame_times]. apply IH.
    apply running_other_event; [exact H|discriminate].
  - destruct (running_next_frame r p t w H) as [Ha Hr].
    cbn [dt_of_each_frame frame_times]. rewrite Ha.
    rewrite (IH t _ Hr). reflexivity.
  - cbn [dt_of_each_frame frame_times]. apply IH.
    apply running_other_event; [exact H|discriminate].
Qed.

Lemma priming_dts r es :
  forall w,
    Animated.priming_state r w ->
    dt_of_each_frame Animated.listener Animated.frame_callback es w =
    match frame_times es with
    | [] => []
    | t0 :: ts => None :: map Some (deltas (t0 :: ts))
    end.
Proof.
  induction es as [|e es IH]; intros w H; [reflexivity|].
  destruct e as [a b|t|d].
  - cbn [dt_of_each_frame frame_times]. apply IH.
    apply priming_other_event; [exact H|discriminate].
  - destruct (priming_first_frame r t w H) as [Ha Hr].
    cbn [dt_of_each_frame frame_times]. rewrite Ha.
    rewrite (running_dts r es t _ Hr). reflexivity.
  - cbn [dt_of_each_frame frame_times]. apply IH.
    apply priming_other_event; [exact H|discriminate].
Qed.

Lemma priming_kept r es :
  forall w,
    Animated.priming_state r w ->
    frame_times es = [] ->
    Animated.priming_state r
      (final (deliver_all Animated.listener Animated.frame_callback es w)).
Proof.
  induction es as [|e es IH]; intros w H Hes; [exact H|].
  rewrite final_deliver_all_cons.
  destruct e as [a b|t|d]; try discriminate Hes;
    (apply IH; [apply priming_other_event; [exact H|discriminate] | exact Hes]).
Qed.

Lemma deltas_nonneg ts :
  increasing ts -> Forall (fun dt => 0 <= dt) (deltas ts).
Proof.
  induction ts as [|a ts IH]; [constructor|].
  destruct ts as [|b ts]; [constructor|].
  intros [Hab Hrest]. cbn [deltas]. constructor.
  - lra.
  - apply IH. exact Hrest.
Qed.

(** C2: in the animated script, the first frame callback only stores its
    timestamp in [prevTime] and requests the next frame, without calling
    [update] or [draw]; in every later frame [update] is called with the
    difference between the timestamp of the frame and that of the frame
    before, which is not negative when the timestamps increase; for frames
    at 16, 33 and 50 the [dt] of the frames are none, 17 and 17. *)
Theorem frame_driver_dt :
  forall vw vh r cv cx,
    context cv = Some cx ->
    (forall es t,
       frame_times es = [] ->
       actions (deliver Animated.listener Animated.frame_callback (Frame t)
                        (final (Animated.session (load vw vh r (Some cv))
                                                 es))) =
       [Deliver (Frame t); Assign "prevTime" t; RequestAnimationFrame] /\
       Animated.prevTime
         (globals (final (deliver Animated.listener Animated.frame_callback
                                  (Frame t)
                                  (final (Animated.session
                                            (load vw vh r (Some cv)) es)))))
       = t) /\
    (forall es,
       dt_of_each_frame Animated.listener Animated.frame_callback es
         (final (Animated.session (load vw vh r (Some cv)) [])) =
       match frame_times es with
       | [] => []
       | t0 :: ts => None :: map Some (deltas (t0 :: ts))
       end) /\
    (forall es,
       increasing (frame_times es) ->
       Forall (fun d => match d with Some dt => 0 <= dt | None => True end)
              (dt_of_each_frame Animated.listener Animated.frame_callback es
                 (final (Animated.session (load vw vh r (Some cv)) [])))) /\
    dt_of_each_frame Animated.listener Animated.frame_callback
      [Frame 16; Frame 33; Frame 50]
      (final (Animated.session (load vw vh r (Some cv)) [])) =
    [None; Some 17; Some 17].
Proof.
  intros vw vh r cv cx Hcx.
  pose proof (animated_startup_priming vw vh r cv cx Hcx) as H0.
  rewrite final_page_nil.
  split; [|split; [|split]].
  - intros es t Hes. rewrite final_page.
    pose proof (priming_kept r es _ H0 Hes) as Hp.
    destruct (priming_first_frame r t _ Hp) as [Ha (_ & _ & Hr)].
    split; [exact Ha | exact Hr].
  - intros es. apply (priming_dts r es _ H0).
  - intros es Hinc. rewrite (priming_dts r es _ H0).
    destruct (frame_times es) as [|t0 ts]; [constructor|].
    constructor; [exact I|].
    apply Forall_map. apply deltas_nonneg. exact Hinc.
  - rewrite (priming_dts r _ _ H0). reflexivity.
Qed.

Lemma frame_driver_dt_witness :
  dt_of_each_frame Animated.listener Animated.frame_callback
    [Frame 16; Resize 640 480; Frame 33; Frame 50]
    (final (Animated.session
              (load 800 600 2 (Some (blank_canvas (Some default_context))))
              [])) =
  [None; Some 17; Some 17] /\
  Forall (fun d => match d with Some dt => 0 <= dt | None => True end)
    (dt_of_each_frame Animated.listener Animated.frame_callback
       [Frame 16; Resize 640 480; Frame 33; Frame 50]
       (final (Animated.session
                 (load 800 600 2 (Some (blank_canvas (Some default_context))))
                 []))).
Proof.
  destruct (frame_driver_dt 800 600 2 (blank_canvas (Some default_context))
              default_context eq_refl) as (_ & Hd & Hn & _).
  split.
  - rewrite Hd. reflexivity.
  - apply Hn. cbn. split; [|split]; [discriminate | discriminate | exact I].
Defined.

(** ** The ViewportState over a session *)

Lemma count_app p l1 l2 :
  count p (l1 ++ l2) = (count p l1 + count p l2)%nat.
Proof.
  unfold count. rewrite filter_app, length_app. reflexivity.
Qed.

Section TraceFacts.
Context {L F G : Type}.
Variable listener : L -> M (World L F G) unit.
Variable frame_callback : F -> Q -> M (World L F G) unit.

Lemma actions_deliver_all_cons e es w :
  actions (deliver_all listener frame_callback (e :: es) w) =
  actions (deliver listener frame_callback e w) ++
  actions (deliver_all listener frame_callback es
             (final (deliver listener frame_callback e w))).
Proof.
  unfold actions. rewrite steps_deliver_all_cons, map_app. reflexivity.
Qed.

Lemma actions_page script es w :
  actions (page listener frame_callback script es w) =
  actions (protect script w) ++
  actions (deliver_all listener frame_callback es (final (protect script w))).
Proof.
  unfold actions. rewrite steps_page, map_app. reflexivity.
Qed.

End TraceFacts.

Ltac open_static w H :=
  open_world w; unfold Static.stable in H; cbn in H;
  destruct H as (-> & -> & -> & ? & -> & ->); try discriminate.

Ltac open_animated w H :=
  open_world w; unfold Animated.stable in H; cbn in H;
  destruct H as (-> & -> & -> & -> & ? & -> & ?); try discriminate.

Ltac each_step :=
  repeat first [apply Forall_nil | apply Forall_cons];
  cbn; try tauto; try (split; (assumption || apply Qle_refl)).


Lemma static_startup_nonneg vw vh r cv cx :
  context cv = Some cx ->
  0 <= vw -> 0 <= vh ->
  (Static.stable r
     (final (protect Static.script (Static.boot (load vw vh r (Some cv))))) /\
   nonneg_viewport
     (host (final (protect Static.script
                           (Static.boot (load vw vh r (Some cv)))))) /\
   nonneg_size
     (Static.logical_size
        (final (protect Static.script
                        (Static.boot (load vw vh r (Some cv))))))) /\
  Forall (fun s => nonneg_size (Static.logical_size (snd s)))
         (steps (protect Static.script
                         (Static.boot (load vw vh r (Some cv))))).
Proof.
  destruct cv as [cw ch sw sh bm o]. cbn [context]. intros -> Hw Hh.
  evaluate. split; [tauto|]. each_step.
Qed.

Lemma static_deliver_nonneg r e w :
  nonneg_event e ->
  Static.stable r w /\ nonneg_viewport (host w) /\
  nonneg_size (Static.logical_size w) ->
  (Static.stable r
     (final (deliver Static.listener Static.frame_callback e w)) /\
   nonneg_viewport
     (host (final (deliver Static.listener Static.frame_callback e w))) /\
   nonneg_size
     (Static.logical_size
        (final (deliver Static.listener Static.frame_callback e w)))) /\
  Forall (fun s => nonneg_size (Static.logical_size (snd s)))
         (steps (deliver Static.listener Static.frame_callback e w)).
Proof.
  intros He (Hs & (Hvw & Hvh) & (Hsw & Hsh)).
  open_static w Hs. cbn in Hvw, Hvh, Hsw, Hsh.
  destruct e as [a b|t|d]; cbn in He; evaluate; (split; [tauto|each_step]).
Qed.

Lemma static_session_nonneg vw vh r cv cx es :
  context cv = Some cx ->
  0 <= vw -> 0 <= vh ->
  Forall nonneg_event es ->
  Forall (fun s => nonneg_size (Static.logical_size (snd s)))
         (steps (Static.session (load vw vh r (Some cv)) es)).
Proof.
  intros Hcx Hw Hh Hes.
  destruct (static_startup_nonneg vw vh r cv cx Hcx Hw Hh) as [Hi Hp].
  refine (proj2 (page_invariant Static.listener Static.frame_callback
            (fun w => Static.stable r w /\ nonneg_viewport (host w) /\
                      nonneg_size (Static.logical_size w))
            (fun s => nonneg_size (Static.logical_size (snd s)))
            nonneg_event _ Static.script es _ Hes Hi Hp)).
  intros e w He Hw0. apply static_deliver_nonneg; assumption.
Qed.

Lemma animated_startup_nonneg vw vh r cv cx :
  context cv = Some cx ->
  0 <= vw -> 0 <= vh ->
  (Animated.stable r
     (final (protect Animated.script (Animated.boot (load vw vh r (Some cv))))) /\
   nonneg_viewport
     (host (final (protect Animated.script
                           (Animated.boot (load vw vh r (Some cv)))))) /\
   nonneg_size
     (Animated.logical_size
        (final (protect Animated.script
                        (Animated.boot (load vw vh r (Some cv))))))) /\
  Forall (fun s => nonneg_size (Animated.logical_size (snd s)))
         (steps (protect Animated.script
                         (Animated.boot (load vw vh r (Some cv))))).
Proof.
  destruct cv as [cw ch sw sh bm o]. cbn [context]. intros -> Hw Hh.
  evaluate. split; [tauto|]. each_step.
Qed.

Lemma animated_deliver_nonneg r e w :
  nonneg_event e ->
  Animated.stable r w /\ nonneg_viewport (host w) /\
  nonneg_size (Animated.logical_size w) ->
  (Animated.stable r
     (final (deliver Animated.listener Animated.frame_callback e w)) /\
   nonneg_viewport
     (host (final (deliver Animated.listener Animated.frame_callback e w))) /\
   nonneg_size
     (Animated.logical_size
        (final (deliver Animated.listener Animated.frame_callback e w)))) /\
  Forall (fun s => nonneg_size (Animated.logical_size (snd s)))
         (steps (deliver Animated.listener Animated.frame_callback e w)).
Proof.
  intros He (Hs & (Hvw & Hvh) & (Hsw & Hsh)).
  open_animated w Hs. cbn in Hvw, Hvh, Hsw, Hsh.
  destruct e as [a b|t|d]; cbn in He;
    [| match goal with Hf : _ \/ _ |- _ => destruct Hf as [-> | ->] end |];
    evaluate; (split; [tauto|each_step]).
Qed.

Lemma animated_session_nonneg vw vh r cv cx es :
  context cv = Some cx ->
  0 <= vw -> 0 <= vh ->
  Forall nonneg_event es ->
  Forall (fun s => nonneg_size (Animated.logical_size (snd s)))
         (steps (Animated.session (load vw vh r (Some cv)) es)).
Proof.
  intros Hcx Hw Hh Hes.
  destruct (animated_startup_nonneg vw vh r cv cx Hcx Hw Hh) as [Hi Hp].
  refine (proj2 (page_invariant Animated.listener Animated.frame_callback
            (fun w => Animated.stable r w /\ nonneg_viewport (host w) /\
                      nonneg_size (Animated.logical_size w))
            (fun s => nonneg_size (Animated.logical_size (snd s)))
            nonneg_event _ Animated.script es _ Hes Hi Hp)).
  intros e w He Hw0. apply animated_deliver_nonneg; assumption.
Qed.

Lemma static_startup_draws vw vh r cv cx rest :
  context cv = Some cx ->
  draws_follow Static.logical_size (vw, vh) rest ->
  draws_follow Static.logical_size (vw, vh)
    (steps (protect Static.script (Static.boot (load vw vh r (Some cv))))
     ++ rest).
Proof.
  destruct cv as [cw ch sw sh bm o]. cbn [context]. intros -> Hr.
  evaluate. split; [reflexivity | exact Hr].
Qed.

Lemma static_deliver_draws r e w latest rest :
  Static.stable r w ->
  draws_follow Static.logical_size
    (match e with Resize a b => (a, b) | _ => latest end) rest ->
  draws_follow Static.logical_size latest
    (steps (deliver Static.listener Static.frame_callback e w) ++ rest).
Proof.
  intros Hs Hr. open_static w Hs.
  destruct e as [a b|t|d]; evaluate;
    [split; [reflexivity | exact Hr] | exact Hr | exact Hr].
Qed.

Lemma static_deliver_all_draws r es :
  forall w latest,
    Static.stable r w ->
    draws_follow Static.logical_size latest
      (steps (deliver_all Static.listener Static.frame_callback es w)).
Proof.
  induction es as [|e es IH]; intros w latest Hs; [exact I|].
  rewrite steps_deliver_all_cons.
  apply (static_deliver_draws r e w latest _ Hs).
  apply IH. apply static_deliver_stable. exact Hs.
Qed.

Lemma animated_startup_draws vw vh r cv cx rest :
  context cv = Some cx ->
  draws_follow Animated.logical_size (vw, vh) rest ->
  draws_follow Animated.logical_size (vw, vh)
    (steps (protect Animated.script (Animated.boot (load vw vh r (Some cv))))
     ++ rest) /\
  Animated.logical_size
    (final (protect Animated.script
                    (Animated.boot (load vw vh r (Some cv))))) = (vw, vh).
Proof.
  destruct cv as [cw ch sw sh bm o]. cbn [context]. intros -> Hr.
  evaluate. split; [exact Hr | reflexivity].
Qed.

Lemma animated_deliver_size r e w latest :
  Animated.stable r w ->
  Animated.logical_size w = latest ->
  Animated.logical_size
    (final (deliver Animated.listener Animated.frame_callback e w)) =
  match e with Resize a b => (a, b) | _ => latest end.
Proof.
  intros Hs Hl. open_animated w Hs. cbn in Hl. subst latest.
  destruct e as [a b|t|d];
    [| match goal with Hf : _ \/ _ |- _ => destruct Hf as [-> | ->] end |];
    reflexivity.
Qed.

Lemma animated_deliver_draws r e w latest rest :
  Animated.stable r w ->
  Animated.logical_size w = latest ->
  draws_follow Animated.logical_size
    (match e with Resize a b => (a, b) | _ => latest end) rest ->
  draws_follow Animated.logical_size latest
    (steps (deliver Animated.listener Animated.frame_callback e w) ++ rest).
Proof.
  intros Hs Hl Hr. open_animated w Hs. cbn in Hl. subst latest.
  destruct e as [a b|t|d];
    [| match goal with Hf : _ \/ _ |- _ => destruct Hf as [-> | ->] end |];
    evaluate; first [exact Hr | split; [reflexivity | exact Hr]].
Qed.

Lemma animated_deliver_all_draws r es :
  forall w latest,
    Animated.stable r w ->
    Animated.logical_size w = latest ->
    draws_follow Animated.logical_size latest
      (steps (deliver_all Animated.listener Animated.frame_callback es w)).
Proof.
  induction es as [|e es IH]; intros w latest Hs Hl; [exact I|].
  rewrite steps_deliver_all_cons.
  apply (animated_deliver_draws r e w latest _ Hs Hl).
  apply IH.
  - apply animated_deliver_stable. exact Hs.
  - apply (animated_deliver_size r e w latest Hs Hl).
Qed.

Lemma static_startup_calls vw vh r cv cx :
  context cv = Some cx ->
  count (is_call "resize")
        (actions (protect Static.script
                          (Static.boot (load vw vh r (Some cv))))) = 1%nat /\
  count (is_call "draw")
        (actions (protect Static.script
                          (Static.boot (load vw vh r (Some cv))))) = 1%nat.
Proof.
  destruct cv as [cw ch sw sh bm o]. cbn [context]. intros ->.
  split; reflexivity.
Qed.

Lemma static_deliver_calls r e w :
  Static.stable r w ->
  count (is_call "resize")
        (actions (deliver Static.listener Static.frame_callback e w)) =
  (if is_resize e then 1 else 0)%nat /\
  count (is_call "draw")
        (actions (deliver Static.listener Static.frame_callback e w)) =
  (if is_resize e then 1 else 0)%nat.
Proof.
  intros Hs. open_static w Hs. destruct e as [a b|t|d]; split; reflexivity.
Qed.

Lemma static_deliver_all_calls r es :
  forall w,
    Static.stable r w ->
    count (is_call "resize")
          (actions (deliver_all Static.listener Static.frame_callback es w)) =
    resizes es /\
    count (is_call "draw")
          (actions (deliver_all Static.listener Static.frame_callback es w)) =
    resizes es.
Proof.
  induction es as [|e es IH]; intros w Hs; [split; reflexivity|].
  rewrite actions_deliver_all_cons, !count_app.
  destruct (static_deliver_calls r e w Hs) as [-> ->].
  destruct (IH _ (static_deliver_stable r e w Hs)) as [-> ->].
  destruct e; split; reflexivity.
Qed.

Lemma static_last_resize r a b w :
  Static.stable r w ->
  Static.logical_size
    (final (deliver Static.listener Static.frame_callback (Resize a b) w)) =
  (a, b).
Proof.
  intros Hs. open_static w Hs. reflexivity.
Qed.

(** C4: over a session of either script that keeps a ViewportState, on a
    host that delivers no negative size, the width and height of the
    ViewportState are not negative after any step, and at every stroke they
    are the size delivered by the latest resize notification (the size of
    the viewport at load before the first).  In the third script every
    notification runs one Sizer pass and one Drawer pass, so a session runs
    one more of each than it has notifications; after notifications of
    800 x 600 and 1024 x 768 the ViewportState is (1024, 768), and three
    passes of each kind have run, that of the script included. *)
Theorem viewport_state_follows_resizes :
  forall vw vh r cv cx,
    context cv = Some cx ->
    0 <= vw -> 0 <= vh ->
    (forall es,
       Forall nonneg_event es ->
       Forall (fun s => nonneg_size (Static.logical_size (snd s)))
              (steps (Static.session (load vw vh r (Some cv)) es)) /\
       Forall (fun s => nonneg_size (Animated.logical_size (snd s)))
              (steps (Animated.session (load vw vh r (Some cv)) es))) /\
    (forall es,
       draws_follow Static.logical_size (vw, vh)
         (steps (Static.session (load vw vh r (Some cv)) es)) /\
       draws_follow Animated.logical_size (vw, vh)
         (steps (Animated.session (load vw vh r (Some cv)) es))) /\
    (forall es,
       count (is_call "resize")
             (actions (Static.session (load vw vh r (Some cv)) es)) =
       S (resizes es) /\
       count (is_call "draw")
             (actions (Static.session (load vw vh r (Some cv)) es)) =
       S (resizes es)) /\
    Static.logical_size
      (final (Static.session (load vw vh r (Some cv))
                             [Resize 800 600; Resize 1024 768])) =
    (1024, 768) /\
    count (is_call "resize")
          (actions (Static.session (load vw vh r (Some cv))
                                   [Resize 800 600; Resize 1024 768])) =
    3%nat /\
    count (is_call "draw")
          (actions (Static.session (load vw vh r (Some cv))
                                   [Resize 800 600; Resize 1024 768])) =
    3%nat.
Proof.
  intros vw vh r cv cx Hcx Hw Hh.
  assert (Hcalls : forall es,
    count (is_call "resize")
          (actions (Static.session (load vw vh r (Some cv)) es)) =
    S (resizes es) /\
    count (is_call "draw")
          (actions (Static.session (load vw vh r (Some cv)) es)) =
    S (resizes es)).
  { intros es. rewrite actions_page, !count_app.
    destruct (static_startup_calls vw vh r cv cx Hcx) as [-> ->].
    destruct (static_deliver_all_calls r es _
                (static_startup_stable vw vh r cv cx Hcx)) as [-> ->].
    split; reflexivity. }
  split; [|split; [|split; [|split; [|split]]]].
  - intros es Hes. split.
    + apply (static_session_nonneg vw vh r cv cx es Hcx Hw Hh Hes).
    + apply (animated_session_nonneg vw vh r cv cx es Hcx Hw Hh Hes).
  - intros es. rewrite !steps_page. split.
    + apply (static_startup_draws vw vh r cv cx _ Hcx).
      apply (static_deliver_all_draws r).
      apply (static_startup_stable vw vh r cv cx Hcx).
    + destruct (animated_startup_draws vw vh r cv cx [] Hcx I) as [_ Hsz].
      apply (animated_startup_draws vw vh r cv cx _ Hcx).
      apply (animated_deliver_all_draws r).
      * apply (animated_startup_stable vw vh r cv cx Hcx).
      * exact Hsz.
  - exact Hcalls.
  - change [Resize 800 600; Resize 1024 768]
      with ([Resize 800 600] ++ [Resize 1024 768]).
    rewrite final_page_snoc.
    apply (static_last_resize r).
    apply (static_session_stable vw vh r cv cx _ Hcx).
  - exact (proj1 (Hcalls [Resize 800 600; Resize 1024 768])).
  - exact (proj2 (Hcalls [Resize 800 600; Resize 1024 768])).
Qed.

Lemma viewport_state_follows_resizes_witness :
  Static.logical_size
    (final (Static.session
              (load 640 480 2 (Some (blank_canvas (Some default_context))))
              [Resize 800 600; Resize 1024 768])) = (1024, 768) /\
  Forall (fun s => nonneg_size (Animated.logical_size (snd s)))
    (steps (Animated.session
              (load 640 480 2 (Some (blank_canvas (Some default_context))))
              [Resize 800 600; Frame 16; Frame 33; Resize 1024 768])).
Proof.
  assert (H0 : 0 <= 640) by discriminate.
  assert (H1 : 0 <= 480) by discriminate.
  destruct (viewport_state_follows_resizes 640 480 2
              (blank_canvas (Some default_context)) default_context
              eq_refl H0 H1) as (Hn & _ & _ & Hf & _).
  split; [exact Hf|].
  apply Hn. repeat constructor; discriminate.
Defined.

(** ** Deliveries, task by task *)

Section DeliveryFacts.
Context {L F G : Type}.
Variable listener : L -> M (World L F G) unit.
Variable frame_callback : F -> Q -> M (World L F G) unit.

Lemma steps_each_cons {C : Type} (f : C -> M (World L F G) unit) c cs w :
  steps (each (c :: cs) f w) =
  steps (protect (f c) w) ++ steps (each cs f (final (protect (f c) w))).
Proof.
  cbn [each]. unfold bind. rewrite protect_normal. reflexivity.
Qed.

Lemma final_each_cons {C : Type} (f : C -> M (World L F G) unit) c cs w :
  final (each (c :: cs) f w) = final (each cs f (final (protect (f c) w))).
Proof.
  cbn [each]. unfold bind. rewrite protect_normal. reflexivity.
Qed.

Lemma steps_deliver_resize a b w :
  steps (deliver listener frame_callback (Resize a b) w) =
  (Deliver (Resize a b), on_host (set_viewport a b) w)
  :: steps (each (resize_listeners (host w)) listener
                 (on_host (set_viewport a b) w)).
Proof.
  cbn [deliver]. unfold bind, act, gets. cbn.
  reflexivity.
Qed.

Lemma final_deliver_resize a b w :
  final (deliver listener frame_callback (Resize a b) w) =
  final (each (resize_listeners (host w)) listener
              (on_host (set_viewport a b) w)).
Proof.
  cbn [deliver]. unfold bind, act, gets. cbn.
  reflexivity.
Qed.

Lemma steps_deliver_frame t w :
  steps (deliver listener frame_callback (Frame t) w) =
  (Deliver (Frame t), on_host take_requests w)
  :: steps (each (frame_requests (host w))
                 (fun cb => frame_callback cb t)
                 (on_host take_requests w)).
Proof.
  cbn [deliver]. unfold bind, act, gets. cbn.
  reflexivity.
Qed.

Lemma final_deliver_frame t w :
  final (deliver listener frame_callback (Frame t) w) =
  final (each (frame_requests (host w))
              (fun cb => frame_callback cb t)
              (on_host take_requests w)).
Proof.
  cbn [deliver]. unfold bind, act, gets. cbn.
  reflexivity.
Qed.

Variable Inv : World L F G -> Prop.
Variable P : action * World L F G -> Prop.

Lemma each_invariant {C : Type} (f : C -> M (World L F G) unit) :
  (forall c w, Inv w ->
     Inv (final (protect (f c) w)) /\ Forall P (steps (protect (f c) w))) ->
  forall cs w, Inv w ->
    Inv (final (each cs f w)) /\ Forall P (steps (each cs f w)).
Proof.
  intros Hf cs. induction cs as [|c cs IH]; intros w Hw.
  - split; [exact Hw|constructor].
  - rewrite final_each_cons, steps_each_cons.
    destruct (Hf c w Hw) as [Hi Hp].
    destruct (IH _ Hi) as [Hi' Hp'].
    split; [exact Hi'|]. apply Forall_app. split; assumption.
Qed.

End DeliveryFacts.

(** ** Startup without a canvas or a context *)

Lemma count_none {W : Type} (p : action -> bool) (ss : list (action * W)) :
  Forall (fun s => p (fst s) = false) ss ->
  count p (map fst ss) = 0%nat.
Proof.
  induction 1 as [|s ss Hs _ IH]; [reflexivity|].
  unfold count in *. cbn [map filter]. rewrite Hs. exact IH.
Qed.

Lemma gives_up_counts {W : Type} (ss : list (action * W)) :
  Forall gives_up ss ->
  count is_query (map fst ss) = 0%nat /\
  count is_context_request (map fst ss) = 0%nat /\
  count is_stroke (map fst ss) = 0%nat.
Proof.
  intros H. repeat split; apply count_none;
    (eapply Forall_impl; [|exact H]); unfold gives_up; tauto.
Qed.

Ltac open_any w :=
  let vw := fresh "vw" in let vh := fresh "vh" in let dpr := fresh "dpr" in
  let cw := fresh "cw" in let ch := fresh "ch" in
  let sw := fresh "sw" in let sh := fresh "sh" in
  let bm := fresh "bm" in
  let ls := fresh "ls" in let fs := fresh "fs" in let g := fresh "g" in
  destruct w as [[vw vh dpr [[cw ch sw sh bm [[? ?]|]]|] ls fs] g];
  destruct g as [[|] [|]] || destruct g as [[|] [|] ? ?]
    || destruct g as [[|] [|] ? ? ? ?].

Ltac quiet_steps :=
  repeat first [apply Forall_nil | apply Forall_cons];
  unfold gives_up; cbn; tauto.

Lemma basic_listener_faulted l w :
  Basic.faulted w ->
  Basic.faulted (final (protect (Basic.listener l) w)) /\
  Forall gives_up (steps (protect (Basic.listener l) w)).
Proof.
  intros H. open_any w; unfold Basic.faulted in H; cbn in H;
    destruct H as [H1 H2]; try discriminate H1; subst;
    destruct l; unfold Basic.faulted; evaluate; (split; [tauto|quiet_steps]).
Qed.

Lemma basic_deliver_faulted e w :
  Basic.faulted w ->
  Basic.faulted (final (deliver Basic.listener Basic.frame_callback e w)) /\
  Forall gives_up (steps (deliver Basic.listener Basic.frame_callback e w)).
Proof.
  intros H. destruct e as [a b|t|d].
  - rewrite final_deliver_resize, steps_deliver_resize.
    assert (H' : Basic.faulted (on_host (set_viewport a b) w)).
    { destruct w as [[] ?]. exact H. }
    destruct (each_invariant Basic.faulted gives_up Basic.listener
                basic_listener_faulted (resize_listeners (host w)) _ H')
      as [Hi Hp].
    split; [exact Hi|]. constructor; [|exact Hp].
    unfold gives_up; cbn; tauto.
  - rewrite final_deliver_frame, steps_deliver_frame.
    destruct H as [H1 H2]. rewrite H2.
    split; [destruct w as [[] ?]; split; [exact H1|reflexivity]|].
    constructor; [|constructor]. unfold gives_up; cbn; tauto.
  - destruct w as [[] ?]. split; [exact H|].
    constructor; [|constructor]. unfold gives_up; cbn; tauto.
Qed.

Lemma basic_startup_faulted vw vh r cv :
  usable cv = false ->
  outcome (Basic.script (Basic.boot (load vw vh r cv))) = Throw TypeError /\
  last (actions (protect Basic.script (Basic.boot (load vw vh r cv))))
       Stroke = Uncaught TypeError /\
  Basic.faulted (final (protect Basic.script
                                (Basic.boot (load vw vh r cv)))) /\
  count is_query
        (actions (protect Basic.script (Basic.boot (load vw vh r cv)))) =
  1%nat /\
  (count is_context_request
         (actions (protect Basic.script (Basic.boot (load vw vh r cv)))) <=
   1)%nat /\
  count is_stroke
        (actions (protect Basic.script (Basic.boot (load vw vh r cv)))) =
  0%nat.
Proof.
  destruct cv as [[cw ch sw sh bm [cx|]]|]; cbn [usable context];
    intros H; try discriminate H;
    (split; [reflexivity|]); (split; [reflexivity|]);
    (split; [split; reflexivity|]); (split; [reflexivity|]);
    (split; [|reflexivity]); cbv; repeat constructor.
Qed.

Lemma basic_session_faulted vw vh r cv es :
  usable cv = false ->
  count is_query (actions (Basic.session (load vw vh r cv) es)) = 1%nat /\
  (count is_context_request
         (actions (Basic.session (load vw vh r cv) es)) <= 1)%nat /\
  count is_stroke (actions (Basic.session (load vw vh r cv) es)) = 0%nat.
Proof.
  intros H.
  destruct (basic_startup_faulted vw vh r cv H)
    as (_ & _ & Hf & Hq & Hc & Hs).
  destruct (deliver_all_invariant Basic.listener Basic.frame_callback
              Basic.faulted gives_up (fun _ => True)
              (fun e w _ => basic_deliver_faulted e w)
              es _ (Forall_any es) Hf) as [_ Hp].
  destruct (gives_up_counts _ Hp) as (Gq & Gc & Gs).
  rewrite actions_page, !count_app.
  unfold actions at 2 4 6. rewrite Gq, Gc, Gs, Hq, Hs.
  repeat split; lia.
Qed.

Lemma animated_listener_faulted l w :
  Animated.faulted w ->
  Animated.faulted (final (protect (Animated.listener l) w)) /\
  Forall gives_up (steps (protect (Animated.listener l) w)).
Proof.
  intros H. open_any w; unfold Animated.faulted in H; cbn in H;
    destruct H as [H1 H2]; try discriminate H1; subst;
    destruct l; unfold Animated.faulted; evaluate; (split; [tauto|quiet_steps]).
Qed.

Lemma animated_deliver_faulted e w :
  Animated.faulted w ->
  Animated.faulted (final (deliver Animated.listener Animated.frame_callback e w)) /\
  Forall gives_up (steps (deliver Animated.listener Animated.frame_callback e w)).
Proof.
  intros H. destruct e as [a b|t|d].
  - rewrite final_deliver_resize, steps_deliver_resize.
    assert (H' : Animated.faulted (on_host (set_viewport a b) w)).
    { destruct w as [[] ?]. exact H. }
    destruct (each_invariant Animated.faulted gives_up Animated.listener
                animated_listener_faulted (resize_listeners (host w)) _ H')
      as [Hi Hp].
    split; [exact Hi|]. constructor; [|exact Hp].
    unfold gives_up; cbn; tauto.
  - rewrite final_deliver_frame, steps_deliver_frame.
    destruct H as [H1 H2]. rewrite H2.
    split; [destruct w as [[] ?]; split; [exact H1|reflexivity]|].
    constructor; [|constructor]. unfold gives_up; cbn; tauto.
  - destruct w as [[] ?]. split; [exact H|].
    constructor; [|constructor]. unfold gives_up; cbn; tauto.
Qed.

Lemma animated_startup_faulted vw vh r cv :
  usable cv = false ->
  outcome (Animated.script (Animated.boot (load vw vh r cv))) = Throw TypeError /\
  last (actions (protect Animated.script (Animated.boot (load vw vh r cv))))
       Stroke = Uncaught TypeError /\
  Animated.faulted (final (protect Animated.script
                                (Animated.boot (load vw vh r cv)))) /\
  count is_query
        (actions (protect Animated.script (Animated.boot (load vw vh r cv)))) =
  1%nat /\
  (count is_context_request
         (actions (protect Animated.script (Animated.boot (load vw vh r cv)))) <=
   1)%nat /\
  count is_stroke
        (actions (protect Animated.script (Animated.boot (load vw vh r cv)))) =
  0%nat.
Proof.
  destruct cv as [[cw ch sw sh bm [cx|]]|]; cbn [usable context];
    intros H; try discriminate H;
    (split; [reflexivity|]); (split; [reflexivity|]);
    (split; [split; reflexivity|]); (split; [reflexivity|]);
    (split; [|reflexivity]); cbv; repeat constructor.
Qed.

Lemma animated_session_faulted vw vh r cv es :
  usable cv = false ->
  count is_query (actions (Animated.session (load vw vh r cv) es)) = 1%nat /\
  (count is_context_request
         (actions (Animated.session (load vw vh r cv) es)) <= 1)%nat /\
  count is_stroke (actions (Animated.session (load vw vh r cv) es)) = 0%nat.
Proof.
  intros H.
  destruct (animated_startup_faulted vw vh r cv H)
    as (_ & _ & Hf & Hq & Hc & Hs).
  destruct (deliver_all_invariant Animated.listener Animated.frame_callback
              Animated.faulted gives_up (fun _ => True)
              (fun e w _ => animated_deliver_faulted e w)
              es _ (Forall_any es) Hf) as [_ Hp].
  destruct (gives_up_counts _ Hp) as (Gq & Gc & Gs).
  rewrite actions_page, !count_app.
  unfold actions at 2 4 6. rewrite Gq, Gc, Gs, Hq, Hs.
  repeat split; lia.
Qed.

Lemma static_listener_faulted l w :
  Static.faulted w ->
  Static.faulted (final (protect (Static.listener l) w)) /\
  Forall gives_up (steps (protect (Static.listener l) w)).
Proof.
  intros H. open_any w; unfold Static.faulted in H; cbn in H;
    destruct H as [H1 H2]; try discriminate H1; subst;
    destruct l; unfold Static.faulted; evaluate; (split; [tauto|quiet_steps]).
Qed.

Lemma static_deliver_faulted e w :
  Static.faulted w ->
  Static.faulted (final (deliver Static.listener Static.frame_callback e w)) /\
  Forall gives_up (steps (deliver Static.listener Static.frame_callback e w)).
Proof.
  intros H. destruct e as [a b|t|d].
  - rewrite final_deliver_resize, steps_deliver_resize.
    assert (H' : Static.faulted (on_host (set_viewport a b) w)).
    { destruct w as [[] ?]. exact H. }
    destruct (each_invariant Static.faulted gives_up Static.listener
                static_listener_faulted (resize_listeners (host w)) _ H')
      as [Hi Hp].
    split; [exact Hi|]. constructor; [|exact Hp].
    unfold gives_up; cbn; tauto.
  - rewrite final_deliver_frame, steps_deliver_frame.
    destruct H as [H1 H2]. rewrite H2.
    split; [destruct w as [[] ?]; split; [exact H1|reflexivity]|].
    constructor; [|constructor]. unfold gives_up; cbn; tauto.
  - destruct w as [[] ?]. split; [exact H|].
    constructor; [|constructor]. unfold gives_up; cbn; tauto.
Qed.

Lemma static_startup_faulted vw vh r cv :
  usable cv = false ->
  outcome (Static.script (Static.boot (load vw vh r cv))) = Throw TypeError /\
  last (actions (protect Static.script (Static.boot (load vw vh r cv))))
       Stroke = Uncaught TypeError /\
  Static.faulted (final (protect Static.script
                                (Static.boot (load vw vh r cv)))) /\
  count is_query
        (actions (protect Static.script (Static.boot (load vw vh r cv)))) =
  1%nat /\
  (count is_context_request
         (actions (protect Static.script (Static.boot (load vw vh r cv)))) <=
   1)%nat /\
  count is_stroke
        (actions (protect Static.script (Static.boot (load vw vh r cv)))) =
  0%nat.
Proof.
  destruct cv as [[cw ch sw sh bm [cx|]]|]; cbn [usable context];
    intros H; try discriminate H;
    (split; [reflexivity|]); (split; [reflexivity|]);
    (split; [split; reflexivity|]); (split; [reflexivity|]);
    (split; [|reflexivity]); cbv; repeat constructor.
Qed.

Lemma static_session_faulted vw vh r cv es :
  usable cv = false ->
  count is_query (actions (Static.session (load vw vh r cv) es)) = 1%nat /\
  (count is_context_request
         (actions (Static.session (load vw vh r cv) es)) <= 1)%nat /\
  count is_stroke (actions (Static.session (load vw vh r cv) es)) = 0%nat.
Proof.
  intros H.
  destruct (static_startup_faulted vw vh r cv H)
    as (_ & _ & Hf & Hq & Hc & Hs).
  destruct (deliver_all_invariant Static.listener Static.frame_callback
              Static.faulted gives_up (fun _ => True)
              (fun e w _ => static_deliver_faulted e w)
              es _ (Forall_any es) Hf) as [_ Hp].
  destruct (gives_up_counts _ Hp) as (Gq & Gc & Gs).
  rewrite actions_page, !count_app.
  unfold actions at 2 4 6. rewrite Gq, Gc, Gs, Hq, Hs.
  repeat split; lia.
Qed.

(** C6: when the document has no canvas element, or no 2D context can be
    obtained from the one it has, the script of each of the three variants
    ends in a [TypeError] that nothing in the script catches: the fault is
    the last step of the startup task.  Over the whole session the canvas
    is queried once, a context is requested at most once, and nothing is
    ever stroked. *)
Theorem startup_faults_without_surface :
  forall vw vh r cv es,
    usable cv = false ->
    (outcome (Basic.script (Basic.boot (load vw vh r cv))) = Throw TypeError /\
     last (actions (protect Basic.script (Basic.boot (load vw vh r cv))))
          Stroke = Uncaught TypeError /\
     count is_query (actions (Basic.session (load vw vh r cv) es)) = 1%nat /\
     (count is_context_request
            (actions (Basic.session (load vw vh r cv) es)) <= 1)%nat /\
     count is_stroke (actions (Basic.session (load vw vh r cv) es)) = 0%nat) /\
    (outcome (Animated.script (Animated.boot (load vw vh r cv))) =
     Throw TypeError /\
     last (actions (protect Animated.script
                            (Animated.boot (load vw vh r cv))))
          Stroke = Uncaught TypeError /\
     count is_query (actions (Animated.session (load vw vh r cv) es)) =
     1%nat /\
     (count is_context_request
            (actions (Animated.session (load vw vh r cv) es)) <= 1)%nat /\
     count is_stroke (actions (Animated.session (load vw vh r cv) es)) =
     0%nat) /\
    (outcome (Static.script (Static.boot (load vw vh r cv))) =
     Throw TypeError /\
     last (actions (protect Static.script (Static.boot (load vw vh r cv))))
          Stroke = Uncaught TypeError /\
     count is_query (actions (Static.session (load vw vh r cv) es)) = 1%nat /\
     (count is_context_request
            (actions (Static.session (load vw vh r cv) es)) <= 1)%nat /\
     count is_stroke (actions (Static.session (load vw vh r cv) es)) =
     0%nat).
Proof.
  intros vw vh r cv es H.
  destruct (basic_startup_faulted vw vh r cv H) as (Bo & Bl & _).
  destruct (animated_startup_faulted vw vh r cv H) as (Ao & Al & _).
  destruct (static_startup_faulted vw vh r cv H) as (So & Sl & _).
  pose proof (basic_session_faulted vw vh r cv es H) as Bs.
  pose proof (animated_session_faulted vw vh r cv es H) as As.
  pose proof (static_session_faulted vw vh r cv es H) as Ss.
  tauto.
Qed.

Lemma startup_faults_without_surface_witness :
  outcome (Animated.script (Animated.boot (load 800 600 2 None))) =
  Throw TypeError /\
  outcome (Static.script
             (Static.boot (load 800 600 2 (Some (blank_canvas None))))) =
  Throw TypeError /\
  count is_stroke
        (actions (Basic.session (load 800 600 2 (Some (blank_canvas None)))
                                [Resize 1024 768; Frame 16])) = 0%nat.
Proof.
  destruct (startup_faults_without_surface 800 600 2 None [] eq_refl)
    as (_ & (Ha & _) & _).
  destruct (startup_faults_without_surface 800 600 2
              (Some (blank_canvas None)) [Resize 1024 768; Frame 16] eq_refl)
    as ((_ & _ & _ & _ & Hb) & _ & (Hs & _)).
  split; [exact Ha|]. split; [exact Hs | exact Hb].
Defined.

(** ** The binding of [loop] *)

Ltac no_fault_steps :=
  repeat first [apply Forall_nil | apply Forall_cons]; cbn; discriminate.

Lemma animated_listener_keeps_loop b fs l w :
  Animated.loop_binding (globals w) = b /\ frame_requests (host w) = fs ->
  (Animated.loop_binding (globals (final (protect (Animated.listener l) w)))
   = b /\
   frame_requests (host (final (protect (Animated.listener l) w))) = fs) /\
  Forall (fun s => fst s <> Uncaught ReferenceError)
         (steps (protect (Animated.listener l) w)).
Proof.
  intros [Hb Hf]. open_any w; cbn in Hb, Hf; subst; destruct l;
    evaluate; (split; [tauto|no_fault_steps]).
Qed.

Lemma animated_frame_keeps_loop t f w :
  Animated.loop_binding (globals w) = Some Animated.loop_fn ->
  Animated.loop_binding
    (globals (final (protect (Animated.frame_callback f t) w))) =
  Some Animated.loop_fn /\
  Forall (fun s => fst s <> Uncaught ReferenceError)
         (steps (protect (Animated.frame_callback f t) w)).
Proof.
  intros Hb. open_any w; cbn in Hb; subst; destruct f;
    evaluate; (split; [reflexivity|no_fault_steps]).
Qed.

Lemma animated_deliver_keeps_loop e w :
  Animated.loop_binding (globals w) = Some Animated.loop_fn \/
  frame_requests (host w) = [] ->
  (Animated.loop_binding
     (globals (final (deliver Animated.listener Animated.frame_callback e w)))
   = Some Animated.loop_fn \/
   frame_requests
     (host (final (deliver Animated.listener Animated.frame_callback e w)))
   = []) /\
  Forall (fun s => fst s <> Uncaught ReferenceError)
         (steps (deliver Animated.listener Animated.frame_callback e w)).
Proof.
  intros H. destruct e as [a b|t|d].
  - rewrite final_deliver_resize, steps_deliver_resize.
    destruct (each_invariant
                (fun x => Animated.loop_binding (globals x) =
                          Animated.loop_binding (globals w) /\
                          frame_requests (host x) = frame_requests (host w))
                (fun s => fst s <> Uncaught ReferenceError)
                Animated.listener
                (animated_listener_keeps_loop _ _)
                (resize_listeners (host w))
                (on_host (set_viewport a b) w))
      as [[Hb Hf] Hp].
    { destruct w as [[] ?]. split; reflexivity. }
    rewrite Hb, Hf. split; [exact H|].
    constructor; [cbn; discriminate | exact Hp].
  - rewrite final_deliver_frame, steps_deliver_frame.
    destruct H as [H|H].
    + destruct (each_invariant
                  (fun x => Animated.loop_binding (globals x) =
                            Some Animated.loop_fn)
                  (fun s => fst s <> Uncaught ReferenceError)
                  (fun cb => Animated.frame_callback cb t)
                  (animated_frame_keeps_loop t)
                  (frame_requests (host w))
                  (on_host take_requests w))
        as [Hb Hp].
      { destruct w as [[] ?]. exact H. }
      split; [left; exact Hb|].
      constructor; [cbn; discriminate | exact Hp].
    + rewrite H. split; [right; destruct w as [[] ?]; reflexivity|].
      constructor; [cbn; discriminate | constructor].
  - destruct w as [[] ?]. split; [exact H|].
    constructor; [cbn; discriminate | constructor].
Qed.

Lemma animated_startup_keeps_loop vw vh r cv :
  (Animated.loop_binding
     (globals (final (protect Animated.script
                              (Animated.boot (load vw vh r cv))))) =
   Some Animated.loop_fn \/
   frame_requests
     (host (final (protect Animated.script
                           (Animated.boot (load vw vh r cv))))) = []) /\
  Forall (fun s => fst s <> Uncaught ReferenceError)
         (steps (protect Animated.script (Animated.boot (load vw vh r cv)))).
Proof.
  destruct cv as [[cw ch sw sh bm [cx|]]|]; evaluate;
    (split; [tauto|no_fault_steps]).
Qed.

Lemma not_in_actions {W : Type} (a : action) (ss : list (action * W)) :
  Forall (fun s => fst s <> a) ss -> ~ In a (map fst ss).
Proof.
  induction 1 as [|s ss Hs _ IH]; cbn; [tauto|].
  intros [E|E]; [exact (Hs E) | exact (IH E)].
Qed.

(** C10: in the animated script no task ever reads [loop] before its
    initialisation: for every document and every sequence of events, no
    [ReferenceError] occurs in the session.  When the script ends, either
    [loop] is initialised or no frame has been requested.  The fault is a
    real branch of the function of lines 57-60: run in a world where [loop]
    is not initialised, it ends in a [ReferenceError]. *)
Theorem loop_is_initialised_before_any_frame :
  (forall vw vh r cv es,
     ~ In (Uncaught ReferenceError)
          (actions (Animated.session (load vw vh r cv) es))) /\
  (forall vw vh r cv,
     Animated.loop_binding
       (globals (final (protect Animated.script
                                (Animated.boot (load vw vh r cv))))) =
     Some Animated.loop_fn \/
     frame_requests
       (host (final (protect Animated.script
                             (Animated.boot (load vw vh r cv))))) = []) /\
  (forall t (w : Animated.W),
     Animated.loop_binding (globals w) = None ->
     outcome (Animated.priming t w) = Throw ReferenceError).
Proof.
  split; [|split].
  - intros vw vh r cv es. apply not_in_actions.
    destruct (animated_startup_keeps_loop vw vh r cv) as [Hi Hp].
    apply (page_invariant Animated.listener Animated.frame_callback
             (fun w => Animated.loop_binding (globals w) =
                       Some Animated.loop_fn \/
                       frame_requests (host w) = [])
             (fun s => fst s <> Uncaught ReferenceError) (fun _ => True)
             (fun e w _ => animated_deliver_keeps_loop e w)
             Animated.script es _ (Forall_any es) Hi Hp).
  - intros vw vh r cv. apply animated_startup_keeps_loop.
  - intros t w H. destruct w as [h [c x pr st pt lb]]. cbn in H. subst lb.
    reflexivity.
Qed.

Lemma loop_is_initialised_before_any_frame_witness :
  outcome (Animated.priming 16
             (Animated.boot
                (load 800 600 2 (Some (blank_canvas (Some default_context))))))
  = Throw ReferenceError /\
  ~ In (Uncaught ReferenceError)
       (actions (Animated.session
                   (load 800 600 2 (Some (blank_canvas (Some default_context))))
                   [Frame 16; Frame 33])).
Proof.
  destruct loop_is_initialised_before_any_frame as (Hs & _ & Hp).
  split; [apply Hp; reflexivity | apply Hs].
Defined.

(** ** The density ratio *)

Section DensityFacts.
Context {L F G : Type}.
Variable listener : L -> M (World L F G) unit.
Variable frame_callback : F -> Q -> M (World L F G) unit.
Variable size : World L F G -> Q * Q.

Hypothesis listener_blind :
  forall l d w,
    final (protect (listener l) (on_host (set_density d) w)) =
    on_host (set_density d) (final (protect (listener l) w)).
Hypothesis frame_callback_blind :
  forall f t d w,
    final (protect (frame_callback f t) (on_host (set_density d) w)) =
    on_host (set_density d) (final (protect (frame_callback f t) w)).
Hypothesis size_blind :
  forall d w, size (on_host (set_density d) w) = size w.

Lemma each_blind {C : Type} (f : C -> M (World L F G) unit) :
  (forall c d w,
     final (protect (f c) (on_host (set_density d) w)) =
     on_host (set_density d) (final (protect (f c) w))) ->
  forall cs d w,
    final (each cs f (on_host (set_density d) w)) =
    on_host (set_density d) (final (each cs f w)).
Proof.
  intros Hf cs. induction cs as [|c cs IH]; intros d w; [reflexivity|].
  rewrite !final_each_cons, Hf. apply IH.
Qed.

Lemma deliver_blind e d w :
  final (deliver listener frame_callback e (on_host (set_density d) w)) =
  match e with
  | DensityChange d' => on_host (set_density d') w
  | _ => on_host (set_density d) (final (deliver listener frame_callback e w))
  end.
Proof.
  destruct e as [a b|t|d'].
  - rewrite !final_deliver_resize.
    rewrite <- (each_blind listener listener_blind). destruct w as [[] ?].
    reflexivity.
  - rewrite !final_deliver_frame.
    rewrite <- (each_blind (fun cb => frame_callback cb t)
                           (fun c => frame_callback_blind c t)).
    destruct w as [[] ?]. reflexivity.
  - destruct w as [[] ?]. reflexivity.
Qed.

Lemma outputs_blind es :
  forall d w,
    outputs_at_resizes (fun x => sizer_output (host x) (size x))
      (snapshots listener frame_callback es (on_host (set_density d) w)) =
    outputs_at_resizes (fun x => sizer_output (host x) (size x))
      (snapshots listener frame_callback (erase_density es) w).
Proof.
  induction es as [|e es IH]; intros d w; [reflexivity|].
  cbn [snapshots]. rewrite deliver_blind.
  destruct e as [a b|t|d'].
  - cbn [erase_density snapshots]. unfold outputs_at_resizes in *.
    cbn [filter fst is_resize map snd]. rewrite IH, size_blind.
    destruct (final (deliver listener frame_callback (Resize a b) w))
      as [[] ?].
    reflexivity.
  - cbn [erase_density snapshots]. unfold outputs_at_resizes in *.
    cbn [filter fst is_resize map snd]. apply IH.
  - cbn [erase_density]. unfold outputs_at_resizes in *.
    cbn [filter fst is_resize map snd]. apply IH.
Qed.

Lemma outputs_erased es w :
  outputs_at_resizes (fun x => sizer_output (host x) (size x))
    (snapshots listener frame_callback es w) =
  outputs_at_resizes (fun x => sizer_output (host x) (size x))
    (snapshots listener frame_callback (erase_density es) w).
Proof.
  rewrite <- (outputs_blind es (devicePixelRatio (host w)) w).
  destruct w as [[] ?]. reflexivity.
Qed.

End DensityFacts.

Section TaskFacts.
Context {L F G : Type}.
Variable listener : L -> M (World L F G) unit.
Variable frame_callback : F -> Q -> M (World L F G) unit.
Variable Inv : World L F G -> Prop.
Variable P : action * World L F G -> Prop.

Hypothesis host_keeps : forall f w, Inv w -> Inv (on_host f w).
Hypothesis delivery_ok : forall e w, P (Deliver e, w).
Hypothesis listener_keeps :
  forall l w, Inv w ->
    Inv (final (protect (listener l) w)) /\
    Forall P (steps (protect (listener l) w)).
Hypothesis frame_callback_keeps :
  forall t f w, Inv w ->
    Inv (final (protect (frame_callback f t) w)) /\
    Forall P (steps (protect (frame_callback f t) w)).

Lemma deliver_from_tasks e w :
  Inv w ->
  Inv (final (deliver listener frame_callback e w)) /\
  Forall P (steps (deliver listener frame_callback e w)).
Proof.
  intros H. destruct e as [a b|t|d].
  - rewrite final_deliver_resize, steps_deliver_resize.
    destruct (each_invariant Inv P listener listener_keeps
                (resize_listeners (host w)) _
                (host_keeps (set_viewport a b) w H)) as [Hi Hp].
    split; [exact Hi|]. constructor; [apply delivery_ok | exact Hp].
  - rewrite final_deliver_frame, steps_deliver_frame.
    destruct (each_invariant Inv P (fun cb => frame_callback cb t)
                (frame_callback_keeps t)
                (frame_requests (host w)) _
                (host_keeps take_requests w H)) as [Hi Hp].
    split; [exact Hi|]. constructor; [apply delivery_ok | exact Hp].
  - split; [exact (host_keeps (set_density d) w H)|].
    constructor; [apply delivery_ok | constructor].
Qed.

End TaskFacts.

Ltac no_read_steps :=
  repeat first [apply Forall_nil | apply Forall_cons]; reflexivity.

Lemma animated_listener_blind l d w :
  final (protect (Animated.listener l) (on_host (set_density d) w)) =
  on_host (set_density d) (final (protect (Animated.listener l) w)).
Proof.
  open_any w; destruct l; reflexivity.
Qed.

Lemma animated_frame_callback_blind f t d w :
  final (protect (Animated.frame_callback f t) (on_host (set_density d) w)) =
  on_host (set_density d) (final (protect (Animated.frame_callback f t) w)).
Proof.
  open_any w; destruct f;
    match goal with o : option Animated.frame_fn |- _ => destruct o end;
    reflexivity.
Qed.

Lemma animated_listener_keeps_ratio r l w :
  Animated.pixelRatio (globals w) = r ->
  Animated.pixelRatio (globals (final (protect (Animated.listener l) w))) = r /\
  Forall (fun s => is_density_read (fst s) = false)
         (steps (protect (Animated.listener l) w)).
Proof.
  intros H. open_any w; cbn in H; subst; destruct l;
    evaluate; (split; [reflexivity|no_read_steps]).
Qed.

Lemma animated_frame_callback_keeps_ratio r t f w :
  Animated.pixelRatio (globals w) = r ->
  Animated.pixelRatio
    (globals (final (protect (Animated.frame_callback f t) w))) = r /\
  Forall (fun s => is_density_read (fst s) = false)
         (steps (protect (Animated.frame_callback f t) w)).
Proof.
  intros H. open_any w; cbn in H; subst; destruct f;
    match goal with o : option Animated.frame_fn |- _ => destruct o end;
    evaluate; (split; [reflexivity|no_read_steps]).
Qed.

Lemma animated_startup_reads_ratio vw vh r c :
  Animated.pixelRatio
    (globals (final (protect Animated.script
                             (Animated.boot (load vw vh r (Some c)))))) = r /\
  count is_density_read
        (actions (protect Animated.script
                          (Animated.boot (load vw vh r (Some c))))) = 1%nat.
Proof.
  destruct c as [cw ch sw sh bm [cx|]]; split; reflexivity.
Qed.

Lemma animated_session_reads_ratio vw vh r c es :
  Animated.pixelRatio
    (globals (final (Animated.session (load vw vh r (Some c)) es))) = r /\
  count is_density_read
        (actions (Animated.session (load vw vh r (Some c)) es)) = 1%nat.
Proof.
  destruct (animated_startup_reads_ratio vw vh r c) as [Hr Hc].
  destruct (deliver_all_invariant Animated.listener Animated.frame_callback
              (fun w => Animated.pixelRatio (globals w) = r)
              (fun s => is_density_read (fst s) = false) (fun _ => True)
              (fun e w _ =>
                 deliver_from_tasks Animated.listener Animated.frame_callback
                   (fun w => Animated.pixelRatio (globals w) = r)
                   (fun s => is_density_read (fst s) = false)
                   (fun f w H => H) (fun e w => eq_refl)
                   (animated_listener_keeps_ratio r)
                   (animated_frame_callback_keeps_ratio r) e w)
              es _ (Forall_any es) Hr) as [Hi Hp].
  rewrite final_page, actions_page, count_app.
  split; [exact Hi|].
  rewrite Hc. unfold actions at 1. rewrite (count_none _ _ Hp). reflexivity.
Qed.

Lemma animated_outputs_erased vw vh r cv es :
  session_outputs Animated.listener Animated.frame_callback Animated.logical_size
    Animated.script (Animated.boot (load vw vh r cv)) es =
  session_outputs Animated.listener Animated.frame_callback Animated.logical_size
    Animated.script (Animated.boot (load vw vh r cv)) (erase_density es).
Proof.
  unfold session_outputs.
  apply (outputs_erased Animated.listener Animated.frame_callback
           Animated.logical_size animated_listener_blind
           animated_frame_callback_blind).
  intros d w. destruct w as [[] ?]. reflexivity.
Qed.

Lemma static_listener_blind l d w :
  final (protect (Static.listener l) (on_host (set_density d) w)) =
  on_host (set_density d) (final (protect (Static.listener l) w)).
Proof.
  open_any w; destruct l; reflexivity.
Qed.

Lemma static_frame_callback_blind f t d w :
  final (protect (Static.frame_callback f t) (on_host (set_density d) w)) =
  on_host (set_density d) (final (protect (Static.frame_callback f t) w)).
Proof.
  destruct f.
Qed.

Lemma static_listener_keeps_ratio r l w :
  Static.pixelRatio (globals w) = r ->
  Static.pixelRatio (globals (final (protect (Static.listener l) w))) = r /\
  Forall (fun s => is_density_read (fst s) = false)
         (steps (protect (Static.listener l) w)).
Proof.
  intros H. open_any w; cbn in H; subst; destruct l;
    evaluate; (split; [reflexivity|no_read_steps]).
Qed.

Lemma static_frame_callback_keeps_ratio r t f w :
  Static.pixelRatio (globals w) = r ->
  Static.pixelRatio
    (globals (final (protect (Static.frame_callback f t) w))) = r /\
  Forall (fun s => is_density_read (fst s) = false)
         (steps (protect (Static.frame_callback f t) w)).
Proof.
  destruct f.
Qed.

Lemma static_startup_reads_ratio vw vh r c :
  Static.pixelRatio
    (globals (final (protect Static.script
                             (Static.boot (load vw vh r (Some c)))))) = r /\
  count is_density_read
        (actions (protect Static.script
                          (Static.boot (load vw vh r (Some c))))) = 1%nat.
Proof.
  destruct c as [cw ch sw sh bm [cx|]]; split; reflexivity.
Qed.

Lemma static_session_reads_ratio vw vh r c es :
  Static.pixelRatio
    (globals (final (Static.session (load vw vh r (Some c)) es))) = r /\
  count is_density_read
        (actions (Static.session (load vw vh r (Some c)) es)) = 1%nat.
Proof.
  destruct (static_startup_reads_ratio vw vh r c) as [Hr Hc].
  destruct (deliver_all_invariant Static.listener Static.frame_callback
              (fun w => Static.pixelRatio (globals w) = r)
              (fun s => is_density_read (fst s) = false) (fun _ => True)
              (fun e w _ =>
                 deliver_from_tasks Static.listener Static.frame_callback
                   (fun w => Static.pixelRatio (globals w) = r)
                   (fun s => is_density_read (fst s) = false)
                   (fun f w H => H) (fun e w => eq_refl)
                   (static_listener_keeps_ratio r)
                   (static_frame_callback_keeps_ratio r) e w)
              es _ (Forall_any es) Hr) as [Hi Hp].
  rewrite final_page, actions_page, count_app.
  split; [exact Hi|].
  rewrite Hc. unfold actions at 1. rewrite (count_none _ _ Hp). reflexivity.
Qed.

Lemma static_outputs_erased vw vh r cv es :
  session_outputs Static.listener Static.frame_callback Static.logical_size
    Static.script (Static.boot (load vw vh r cv)) es =
  session_outputs Static.listener Static.frame_callback Static.logical_size
    Static.script (Static.boot (load vw vh r cv)) (erase_density es).
Proof.
  unfold session_outputs.
  apply (outputs_erased Static.listener Static.frame_callback
           Static.logical_size static_listener_blind
           static_frame_callback_blind).
  intros d w. destruct w as [[] ?]. reflexivity.
Qed.

(** C7: the two density aware scripts read the density ratio once, when
    the script runs, and keep that value in [pixelRatio] whatever the host
    does later.  Two sessions from the same document whose events differ
    only in the changes of display density leave the same Sizer outputs
    (backing resolution, displayed size, scale transform, ViewportState)
    at every resize notification. *)
Theorem density_is_read_once_at_startup :
  (forall vw vh r cv es1 es2,
     erase_density es1 = erase_density es2 ->
     session_outputs Animated.listener Animated.frame_callback
       Animated.logical_size Animated.script
       (Animated.boot (load vw vh r cv)) es1 =
     session_outputs Animated.listener Animated.frame_callback
       Animated.logical_size Animated.script
       (Animated.boot (load vw vh r cv)) es2 /\
     session_outputs Static.listener Static.frame_callback
       Static.logical_size Static.script
       (Static.boot (load vw vh r cv)) es1 =
     session_outputs Static.listener Static.frame_callback
       Static.logical_size Static.script
       (Static.boot (load vw vh r cv)) es2) /\
  (forall vw vh r c es,
     (Animated.pixelRatio
        (globals (final (Animated.session (load vw vh r (Some c)) es))) = r /\
      count is_density_read
            (actions (Animated.session (load vw vh r (Some c)) es)) =
      1%nat) /\
     (Static.pixelRatio
        (globals (final (Static.session (load vw vh r (Some c)) es))) = r /\
      count is_density_read
            (actions (Static.session (load vw vh r (Some c)) es)) = 1%nat)).
Proof.
  split.
  - intros vw vh r cv es1 es2 H.
    rewrite (animated_outputs_erased vw vh r cv es1).
    rewrite (animated_outputs_erased vw vh r cv es2).
    rewrite (static_outputs_erased vw vh r cv es1).
    rewrite (static_outputs_erased vw vh r cv es2).
    rewrite H. split; reflexivity.
  - intros vw vh r c es. split.
    + apply animated_session_reads_ratio.
    + apply static_session_reads_ratio.
Qed.

Lemma density_is_read_once_at_startup_witness :
  session_outputs Animated.listener Animated.frame_callback
    Animated.logical_size Animated.script
    (Animated.boot
       (load 800 600 2 (Some (blank_canvas (Some default_context)))))
    [DensityChange 3; Resize 1024 768; Frame 16; Resize 640 480] =
  session_outputs Animated.listener Animated.frame_callback
    Animated.logical_size Animated.script
    (Animated.boot
       (load 800 600 2 (Some (blank_canvas (Some default_context)))))
    [Resize 1024 768; DensityChange 1; Frame 16; DensityChange 5;
     Resize 640 480].
Proof.
  apply (proj1 density_is_read_once_at_startup). reflexivity.
Defined.

(** The outputs of the session of the witness: the backing store is scaled
    by the ratio read at startup, 2, also after the display has changed to
    a ratio of 3. *)
Example outputs_after_a_density_change :
  session_outputs Animated.listener Animated.frame_callback
    Animated.logical_size Animated.script
    (Animated.boot
       (load 800 600 2 (Some (blank_canvas (Some default_context)))))
    [DensityChange 3; Resize 1024 768] =
  [Some (mk_output (2048, 1536) (Some (px 1024), Some (px 768))
                   (Some (mk_matrix 2 0 0 2 0 0)) (1024, 768))].
Proof. vm_compute. reflexivity. Qed.

(** * Further facts about the three scripts *)

Ltac open_basic w H :=
  open_world w; unfold Basic.stable in H; cbn in H;
  destruct H as (-> & -> & ? & -> & ->); try discriminate.

Ltac plain_steps :=
  repeat first [apply Forall_nil | apply Forall_cons]; reflexivity.

(** ** No task faults on a document with a canvas and a context *)

Lemma basic_tasks_complete e w :
  Basic.stable w ->
  Basic.stable (final (deliver Basic.listener Basic.frame_callback e w)) /\
  Forall (fun s => is_fault (fst s) = false)
         (steps (deliver Basic.listener Basic.frame_callback e w)).
Proof.
  intros H. split; [apply basic_deliver_stable; exact H|].
  open_basic w H. destruct e as [a b|t|d]; evaluate; plain_steps.
Qed.

Lemma animated_tasks_complete r e w :
  Animated.stable r w ->
  Animated.stable r
    (final (deliver Animated.listener Animated.frame_callback e w)) /\
  Forall (fun s => is_fault (fst s) = false)
         (steps (deliver Animated.listener Animated.frame_callback e w)).
Proof.
  intros H. split; [apply animated_deliver_stable; exact H|].
  open_animated w H.
  destruct e as [a b|t|d];
    [| match goal with Hf : _ \/ _ |- _ => destruct Hf as [-> | ->] end |];
    evaluate; plain_steps.
Qed.

Lemma static_tasks_complete r e w :
  Static.stable r w ->
  Static.stable r
    (final (deliver Static.listener Static.frame_callback e w)) /\
  Forall (fun s => is_fault (fst s) = false)
         (steps (deliver Static.listener Static.frame_callback e w)).
Proof.
  intros H. split; [apply static_deliver_stable; exact H|].
  open_static w H. destruct e as [a b|t|d]; evaluate; plain_steps.
Qed.

Lemma scripts_complete vw vh r cv cx :
  context cv = Some cx ->
  Forall (fun s => is_fault (fst s) = false)
         (steps (protect Basic.script (Basic.boot (load vw vh r (Some cv)))))
  /\
  Forall (fun s => is_fault (fst s) = false)
         (steps (protect Animated.script
                         (Animated.boot (load vw vh r (Some cv))))) /\
  Forall (fun s => is_fault (fst s) = false)
         (steps (protect Static.script
                         (Static.boot (load vw vh r (Some cv))))).
Proof.
  destruct cv as [cw ch sw sh bm o]. cbn [context]. intros ->.
  split; [|split]; evaluate; plain_steps.
Qed.

(** X1: on a document with a canvas and a 2D context, no task of a session
    ends in an exception, in any of the three scripts and for every
    sequence of events. *)
Theorem no_task_faults_with_a_surface :
  forall vw vh r cv cx es,
    context cv = Some cx ->
    count is_fault (actions (Basic.session (load vw vh r (Some cv)) es)) =
    0%nat /\
    count is_fault (actions (Animated.session (load vw vh r (Some cv)) es)) =
    0%nat /\
    count is_fault (actions (Static.session (load vw vh r (Some cv)) es)) =
    0%nat.
Proof.
  intros vw vh r cv cx es Hcx.
  destruct (scripts_complete vw vh r cv cx Hcx) as (Hb & Ha & Hs).
  split; [|split]; apply count_none.
  - apply (page_invariant Basic.listener Basic.frame_callback
             Basic.stable (fun s => is_fault (fst s) = false)
             (fun _ => True) (fun e w _ => basic_tasks_complete e w)
             Basic.script es _ (Forall_any es)
             (basic_startup_stable vw vh r cv cx Hcx) Hb).
  - apply (page_invariant Animated.listener Animated.frame_callback
             (Animated.stable r) (fun s => is_fault (fst s) = false)
             (fun _ => True) (fun e w _ => animated_tasks_complete r e w)
             Animated.script es _ (Forall_any es)
             (animated_startup_stable vw vh r cv cx Hcx) Ha).
  - apply (page_invariant Static.listener Static.frame_callback
             (Static.stable r) (fun s => is_fault (fst s) = false)
             (fun _ => True) (fun e w _ => static_tasks_complete r e w)
             Static.script es _ (Forall_any es)
             (static_startup_stable vw vh r cv cx Hcx) Hs).
Qed.

Lemma no_task_faults_with_a_surface_witness :
  count is_fault
    (actions (Animated.session
                (load 800 600 2 (Some (blank_canvas (Some default_context))))
                [Frame 16; Resize 1024 768; Frame 33; DensityChange 3])) =
  0%nat.
Proof.
  apply (no_task_faults_with_a_surface 800 600 2
           (blank_canvas (Some default_context)) default_context
           [Frame 16; Resize 1024 768; Frame 33; DensityChange 3] eq_refl).
Defined.

(** ** The frame loop of the animated script *)

Lemma priming_event_counts r e w :
  Animated.priming_state r w ->
  count is_frame_request
        (actions (deliver Animated.listener Animated.frame_callback e w)) =
  (if is_frame e then 1 else 0)%nat /\
  count is_stroke
        (actions (deliver Animated.listener Animated.frame_callback e w)) =
  0%nat /\
  (is_frame e = false ->
   Animated.prevTime
     (globals (final (deliver Animated.listener Animated.frame_callback e w)))
   = Animated.prevTime (globals w)).
Proof.
  intros H. open_priming w H.
  destruct e as [a b|t|d];
    (split; [reflexivity|]); (split; [reflexivity|]); intros E;
    first [discriminate E | reflexivity].
Qed.

Lemma running_event_counts r p e w :
  Animated.running_state r p w ->
  count is_frame_request
        (actions (deliver Animated.listener Animated.frame_callback e w)) =
  (if is_frame e then 1 else 0)%nat /\
  count is_stroke
        (actions (deliver Animated.listener Animated.frame_callback e w)) =
  (if is_frame e then 1 else 0)%nat.
Proof.
  intros H. open_running w H.
  destruct e as [a b|t|d]; split; reflexivity.
Qed.

Lemma last_cons_default {A : Type} (l : list A) :
  forall t p, last (t :: l) p = last l t.
Proof.
  induction l as [|x l IH]; intros t p; [reflexivity|].
  change (last (t :: x :: l) p) with (last (x :: l) p).
  rewrite (IH x p), (IH x t). reflexivity.
Qed.

Lemma running_counts r es :
  forall p w,
    Animated.running_state r p w ->
    count is_frame_request
      (actions (deliver_all Animated.listener Animated.frame_callback es w)) =
    frames es /\
    count is_stroke
      (actions (deliver_all Animated.listener Animated.frame_callback es w)) =
    frames es /\
    Animated.running_state r (last (frame_times es) p)
      (final (deliver_all Animated.listener Animated.frame_callback es w)).
Proof.
  induction es as [|e es IH]; intros p w H.
  - split; [reflexivity|]. split; [reflexivity|exact H].
  - rewrite actions_deliver_all_cons, final_deliver_all_cons, !count_app.
    destruct (running_event_counts r p e w H) as [-> ->].
    destruct e as [a b|t|d].
    + assert (Ho : forall t, Resize a b <> Frame t) by discriminate.
      destruct (IH p _ (running_other_event r p _ w H Ho)) as (-> & -> & Hr).
      split; [reflexivity|]. split; [reflexivity|exact Hr].
    + destruct (running_next_frame r p t w H) as [_ Hn].
      destruct (IH t _ Hn) as (-> & -> & Hr).
      split; [reflexivity|]. split; [reflexivity|].
      cbn [frame_times]. rewrite last_cons_default. exact Hr.
    + assert (Ho : forall t, DensityChange d <> Frame t) by discriminate.
      destruct (IH p _ (running_other_event r p _ w H Ho)) as (-> & -> & Hr).
      split; [reflexivity|]. split; [reflexivity|exact Hr].
Qed.

Lemma priming_counts r es :
  forall w,
    Animated.priming_state r w ->
    count is_frame_request
      (actions (deliver_all Animated.listener Animated.frame_callback es w)) =
    frames es /\
    count is_stroke
      (actions (deliver_all Animated.listener Animated.frame_callback es w)) =
    pred (frames es) /\
    List.length
      (frame_requests
         (host (final (deliver_all Animated.listener Animated.frame_callback
                                   es w)))) = 1%nat /\
    Animated.prevTime
      (globals (final (deliver_all Animated.listener Animated.frame_callback
                                   es w))) =
    last (frame_times es) (Animated.prevTime (globals w)).
Proof.
  induction es as [|e es IH]; intros w H.
  - split; [reflexivity|]. split; [reflexivity|].
    split; [|reflexivity]. cbn. destruct H as [_ ->]. reflexivity.
  - rewrite actions_deliver_all_cons, final_deliver_all_cons, !count_app.
    destruct (priming_event_counts r e w H) as (-> & -> & Hp).
    destruct e as [a b|t|d].
    + assert (Ho : forall t, Resize a b <> Frame t) by discriminate.
      destruct (IH _ (priming_other_event r _ w H Ho))
        as (-> & -> & Hl & Ht).
      rewrite Ht, (Hp eq_refl). repeat split; try reflexivity. exact Hl.
    + destruct (priming_first_frame r t w H) as [_ Hn].
      destruct (running_counts r es t _ Hn) as (-> & -> & (_ & Hf & Ht)).
      rewrite Hf, Ht. cbn [frame_times]. rewrite last_cons_default.
      repeat split; reflexivity.
    + assert (Ho : forall t, DensityChange d <> Frame t) by discriminate.
      destruct (IH _ (priming_other_event r _ w H Ho))
        as (-> & -> & Hl & Ht).
      rewrite Ht, (Hp eq_refl). repeat split; try reflexivity. exact Hl.
Qed.

Lemma animated_startup_counts vw vh r cv cx :
  context cv = Some cx ->
  count is_frame_request
        (actions (protect Animated.script
                          (Animated.boot (load vw vh r (Some cv))))) =
  1%nat /\
  count is_stroke
        (actions (protect Animated.script
                          (Animated.boot (load vw vh r (Some cv))))) =
  0%nat /\
  Animated.prevTime
    (globals (final (protect Animated.script
                             (Animated.boot (load vw vh r (Some cv))))))
  = 0.
Proof.
  destruct cv as [cw ch sw sh bm o]. cbn [context]. intros ->.
  repeat split.
Qed.

(** X2: in the animated script, on a document with a canvas and a 2D
    context, exactly one frame request is pending after the script and
    after every event, and the script and each frame callback request one
    frame each: the loop neither stops nor multiplies, whatever resizes
    come between the frames. *)
Theorem one_frame_request_is_always_pending :
  forall vw vh r cv cx es,
    context cv = Some cx ->
    List.length
      (frame_requests
         (host (final (Animated.session (load vw vh r (Some cv)) es)))) =
    1%nat /\
    count is_frame_request
      (actions (Animated.session (load vw vh r (Some cv)) es)) =
    S (frames es).
Proof.
  intros vw vh r cv cx es Hcx.
  destruct (animated_startup_counts vw vh r cv cx Hcx) as (Hr & _ & _).
  destruct (priming_counts r es _
              (animated_startup_priming vw vh r cv cx Hcx))
    as (Hc & _ & Hl & _).
  rewrite final_page, actions_page, count_app, Hr, Hc.
  split; [exact Hl | reflexivity].
Qed.

Lemma one_frame_request_is_always_pending_witness :
  count is_frame_request
    (actions (Animated.session
                (load 800 600 2 (Some (blank_canvas (Some default_context))))
                [Frame 16; Resize 1024 768; Frame 33])) = 3%nat.
Proof.
  apply (one_frame_request_is_always_pending 800 600 2
           (blank_canvas (Some default_context)) default_context
           [Frame 16; Resize 1024 768; Frame 33] eq_refl).
Defined.

(** X3: the animated script strokes once in every frame but the first and
    nowhere else: not when the script runs and not on a resize
    notification.  A session with [n] frames has [n - 1] strokes. *)
Theorem animated_strokes_once_per_later_frame :
  forall vw vh r cv cx es,
    context cv = Some cx ->
    count is_stroke
      (actions (Animated.session (load vw vh r (Some cv)) es)) =
    pred (frames es).
Proof.
  intros vw vh r cv cx es Hcx.
  destruct (animated_startup_counts vw vh r cv cx Hcx) as (_ & Hs & _).
  destruct (priming_counts r es _
              (animated_startup_priming vw vh r cv cx Hcx))
    as (_ & Hc & _ & _).
  rewrite actions_page, count_app, Hs, Hc. reflexivity.
Qed.

Lemma animated_strokes_once_per_later_frame_witness :
  count is_stroke
    (actions (Animated.session
                (load 800 600 2 (Some (blank_canvas (Some default_context))))
                [Resize 640 480; Frame 16; Resize 1024 768; Frame 33;
                 Frame 50])) = 2%nat.
Proof.
  apply (animated_strokes_once_per_later_frame 800 600 2
           (blank_canvas (Some default_context)) default_context
           [Resize 640 480; Frame 16; Resize 1024 768; Frame 33; Frame 50]
           eq_refl).
Defined.

(** X4: in the animated script [prevTime] holds the timestamp of the
    latest frame, and 0 as long as no frame has come; resize notifications
    and changes of density leave it alone. *)
Theorem prevTime_is_the_latest_frame :
  forall vw vh r cv cx es,
    context cv = Some cx ->
    Animated.prevTime
      (globals (final (Animated.session (load vw vh r (Some cv)) es))) =
    last (frame_times es) 0.
Proof.
  intros vw vh r cv cx es Hcx.
  destruct (animated_startup_counts vw vh r cv cx Hcx) as (_ & _ & H0).
  destruct (priming_counts r es _
              (animated_startup_priming vw vh r cv cx Hcx))
    as (_ & _ & _ & Ht).
  rewrite final_page, Ht, H0. reflexivity.
Qed.

Lemma prevTime_is_the_latest_frame_witness :
  Animated.prevTime
    (globals (final (Animated.session
                       (load 800 600 2
                             (Some (blank_canvas (Some default_context))))
                       [Frame 16; Resize 1024 768; Frame 33;
                        DensityChange 3]))) = 33.
Proof.
  apply (prevTime_is_the_latest_frame 800 600 2
           (blank_canvas (Some default_context)) default_context
           [Frame 16; Resize 1024 768; Frame 33; DensityChange 3] eq_refl).
Defined.

(** ** What a resize leaves on the canvas *)

Lemma animated_resize_paints_nothing r a b w :
  Animated.stable r w ->
  painted (host (final (deliver Animated.listener Animated.frame_callback
                                (Resize a b) w))) = [].
Proof.
  intros H. open_animated w H. reflexivity.
Qed.

(** X5: in the animated script a resize notification leaves a blank
    bitmap: [resize] resets the canvas and does not call [draw], so the
    line is absent until the next frame.  The bitmap is blank after the
    script too. *)
Theorem animated_resize_blanks_the_canvas :
  forall vw vh r cv cx es a b,
    context cv = Some cx ->
    painted
      (host (final (Animated.session (load vw vh r (Some cv))
                                     (es ++ [Resize a b])))) = [] /\
    painted
      (host (final (Animated.session (load vw vh r (Some cv)) []))) = [].
Proof.
  intros vw vh r cv cx es a b Hcx. split.
  - rewrite final_page_snoc.
    apply (animated_resize_paints_nothing r).
    apply (animated_session_stable vw vh r cv cx es Hcx).
  - rewrite final_page_nil.
    destruct cv as [cw ch sw sh bm o]. cbn [context] in Hcx. subst o.
    reflexivity.
Qed.

Lemma animated_resize_blanks_the_canvas_witness :
  painted
    (host (final (Animated.session
                    (load 800 600 2
                          (Some (blank_canvas (Some default_context))))
                    ([Frame 16; Frame 33] ++ [Resize 1024 768])))) = [].
Proof.
  apply (proj1 (animated_resize_blanks_the_canvas 800 600 2
                  (blank_canvas (Some default_context)) default_context
                  [Frame 16; Frame 33] 1024 768 eq_refl)).
Defined.

Lemma whole_below (q : Q) : whole q <= q.
Proof. apply Qfloor_le. Qed.











Lemma animated_other_event_keeps_output r e w :
  Animated.stable r w ->
  is_resize e = false ->
  sizer_output
    (host (final (deliver Animated.listener Animated.frame_callback e w)))
    (Animated.logical_size
       (final (deliver Animated.listener Animated.frame_callback e w))) =
  sizer_output (host w) (Animated.logical_size w).
Proof.
  intros H He. open_animated w H.
  destruct e as [a b|t|d]; [discriminate He| |];
    [match goal with Hf : _ \/ _ |- _ => destruct Hf as [-> | ->] end|];
    reflexivity.
Qed.

Lemma static_other_event_keeps_output r e w :
  Static.stable r w ->
  is_resize e = false ->
  sizer_output
    (host (final (deliver Static.listener Static.frame_callback e w)))
    (Static.logical_size
       (final (deliver Static.listener Static.frame_callback e w))) =
  sizer_output (host w) (Static.logical_size w).
Proof.
  intros H He. open_static w H.
  destruct e as [a b|t|d]; [discriminate He| |]; reflexivity.
Qed.

Lemma basic_other_event_keeps_output e w :
  Basic.stable w ->
  is_resize e = false ->
  sizer_output
    (host (final (deliver Basic.listener Basic.frame_callback e w)))
    (Basic.logical_size
       (final (deliver Basic.listener Basic.frame_callback e w))) =
  sizer_output (host w) (Basic.logical_size w).
Proof.
  intros H He. open_basic w H.
  destruct e as [a b|t|d]; [discriminate He| |]; reflexivity.
Qed.

(** X7: only a resize notification changes what the Sizer set up: in each
    of the three scripts a frame or a change of density leaves the backing
    resolution, the displayed size, the scale transform and the logical
    size as they were.  In particular the frame loop of the animated
    script, which clears and strokes, keeps the transform. *)
Theorem only_a_resize_changes_the_sizer_output :
  forall v vw vh r cv cx es e,
    context cv = Some cx ->
    is_resize e = false ->
    output_after v vw vh r cv (es ++ [e]) = output_after v vw vh r cv es.
Proof.
  intros v vw vh r cv cx es e Hcx He. destruct v.
  - rewrite !output_after_basic, final_page_snoc.
    apply basic_other_event_keeps_output; [|exact He].
    apply (basic_session_style vw vh r cv cx es Hcx).
  - rewrite !output_after_animated, final_page_snoc.
    apply (animated_other_event_keeps_output r); [|exact He].
    apply (animated_session_stable vw vh r cv cx es Hcx).
  - rewrite !output_after_static, final_page_snoc.
    apply (static_other_event_keeps_output r); [|exact He].
    apply (static_session_stable vw vh r cv cx es Hcx).
Qed.

Lemma only_a_resize_changes_the_sizer_output_witness :
  output_after animated 800 600 2 (blank_canvas (Some default_context))
               ([Frame 16; Resize 1024 768] ++ [Frame 33]) =
  output_after animated 800 600 2 (blank_canvas (Some default_context))
               [Frame 16; Resize 1024 768].
Proof.
  apply (only_a_resize_changes_the_sizer_output animated 800 600 2
           (blank_canvas (Some default_context)) default_context
           [Frame 16; Resize 1024 768] (Frame 33) eq_refl eq_refl).
Defined.

Lemma static_pass_forgets r a b w1 w2 :
  Static.stable r w1 ->
  Static.stable r w2 ->
  canvas (host (final (deliver Static.listener Static.frame_callback
                               (Resize a b) w1))) =
  canvas (host (final (deliver Static.listener Static.frame_callback
                               (Resize a b) w2))) /\
  Static.logical_size
    (final (deliver Static.listener Static.frame_callback (Resize a b) w1)) =
  Static.logical_size
    (final (deliver Static.listener Static.frame_callback (Resize a b) w2)).
Proof.
  intros H1 H2. open_static w1 H1. open_static w2 H2. split; reflexivity.
Qed.

Lemma animated_pass_forgets r a b w1 w2 :
  Animated.stable r w1 ->
  Animated.stable r w2 ->
  canvas (host (final (deliver Animated.listener Animated.frame_callback
                               (Resize a b) w1))) =
  canvas (host (final (deliver Animated.listener Animated.frame_callback
                               (Resize a b) w2))) /\
  Animated.logical_size
    (final (deliver Animated.listener Animated.frame_callback
                    (Resize a b) w1)) =
  Animated.logical_size
    (final (deliver Animated.listener Animated.frame_callback
                    (Resize a b) w2)).
Proof.
  intros H1 H2. open_animated w1 H1. open_animated w2 H2. split; reflexivity.
Qed.

(** X8: in the two density aware scripts a resize notification erases the
    past: the canvas (size, style, bitmap, transform and path) and the
    ViewportState it leaves depend on the delivered size and on the density
    ratio read at startup only, not on the document the page started from
    nor on the events before.  Hence a repeated notification of the same
    size changes nothing. *)
Theorem a_resize_erases_the_past :
  forall vw1 vh1 vw2 vh2 r cv1 cx1 cv2 cx2 es1 es2 a b,
    context cv1 = Some cx1 ->
    context cv2 = Some cx2 ->
    (canvas (host (final (Static.session (load vw1 vh1 r (Some cv1))
                                         (es1 ++ [Resize a b])))) =
     canvas (host (final (Static.session (load vw2 vh2 r (Some cv2))
                                         (es2 ++ [Resize a b])))) /\
     Static.logical_size
       (final (Static.session (load vw1 vh1 r (Some cv1))
                              (es1 ++ [Resize a b]))) =
     Static.logical_size
       (final (Static.session (load vw2 vh2 r (Some cv2))
                              (es2 ++ [Resize a b])))) /\
    (canvas (host (final (Animated.session (load vw1 vh1 r (Some cv1))
                                           (es1 ++ [Resize a b])))) =
     canvas (host (final (Animated.session (load vw2 vh2 r (Some cv2))
                                           (es2 ++ [Resize a b])))) /\
     Animated.logical_size
       (final (Animated.session (load vw1 vh1 r (Some cv1))
                                (es1 ++ [Resize a b]))) =
     Animated.logical_size
       (final (Animated.session (load vw2 vh2 r (Some cv2))
                                (es2 ++ [Resize a b])))).
Proof.
  intros vw1 vh1 vw2 vh2 r cv1 cx1 cv2 cx2 es1 es2 a b H1 H2.
  rewrite !final_page_snoc. split.
  - apply (static_pass_forgets r).
    + apply (static_session_stable vw1 vh1 r cv1 cx1 es1 H1).
    + apply (static_session_stable vw2 vh2 r cv2 cx2 es2 H2).
  - apply (animated_pass_forgets r).
    + apply (animated_session_stable vw1 vh1 r cv1 cx1 es1 H1).
    + apply (animated_session_stable vw2 vh2 r cv2 cx2 es2 H2).
Qed.

Lemma a_resize_erases_the_past_witness :
  canvas (host (final (Static.session
                         (load 800 600 2
                               (Some (blank_canvas (Some default_context))))
                         ([Resize 320 200; Frame 16] ++ [Resize 1024 768]))))
  =
  canvas (host (final (Static.session
                         (load 1 1 2
                               (Some (blank_canvas
                                        (Some (mk_context (uniform_scale 7)
                                                          [[(1, 1)]])))))
                         ([Resize 1024 768] ++ [Resize 1024 768])))).
Proof.
  apply (proj1 (proj1 (a_resize_erases_the_past 800 600 1 1 2
                  (blank_canvas (Some default_context)) default_context
                  (blank_canvas (Some (mk_context (uniform_scale 7)
                                                  [[(1, 1)]])))
                  (mk_context (uniform_scale 7) [[(1, 1)]])
                  [Resize 320 200; Frame 16] [Resize 1024 768] 1024 768
                  eq_refl eq_refl))).
Defined.

(** ** Running the Line Drawer twice *)

Section PictureFacts.
Variable stroke_coverage : Matrix -> path -> point -> Q.
Variable rect_coverage : Matrix -> Q -> Q -> Q -> Q -> point -> Q.

Lemma same_picture_alpha {L F : Type} (h1 h2 : Host L F) :
  same_picture stroke_coverage rect_coverage (canvas h1) (canvas h2) ->
  forall p,
    alpha_at stroke_coverage rect_coverage (painted h1) p ==
    alpha_at stroke_coverage rect_coverage (painted h2) p.
Proof.
  unfold same_picture, painted.
  destruct (canvas h1), (canvas h2); try tauto.
  intros _ p. reflexivity.
Qed.

Lemma restroke_alpha m pth bm p :
  alpha_at stroke_coverage rect_coverage
           (Stroked m pth :: Stroked m pth :: bm) p ==
  stroke_coverage m pth p
  + alpha_at stroke_coverage rect_coverage (Stroked m pth :: bm) p
    * (1 - stroke_coverage m pth p).
Proof. reflexivity. Qed.

Lemma restroke_full_or_none m pth bm p :
  stroke_coverage m pth p == 0 \/ stroke_coverage m pth p == 1 ->
  alpha_at stroke_coverage rect_coverage
           (Stroked m pth :: Stroked m pth :: bm) p ==
  alpha_at stroke_coverage rect_coverage (Stroked m pth :: bm) p.
Proof.
  cbn [alpha_at]. intros [E|E]; rewrite E; ring.
Qed.

Lemma redraw_after_full_clear m x y w h pth bm p :
  rect_coverage m x y w h p == 1 ->
  alpha_at stroke_coverage rect_coverage
    (Stroked m pth :: Cleared m x y w h
     :: Stroked m pth :: Cleared m x y w h :: bm) p ==
  alpha_at stroke_coverage rect_coverage
    (Stroked m pth :: Cleared m x y w h :: bm) p.
Proof.
  cbn [alpha_at]. intros E. rewrite E. ring.
Qed.

End PictureFacts.

Lemma stroke_again_deepens (c a1 : Q) :
  0 < c -> a1 < 1 -> a1 < c + a1 * (1 - c).
Proof. intros Hc Ha. nra. Qed.

Section RedrawFacts.
Variable stroke_coverage : Matrix -> path -> point -> Q.
Variable rect_coverage : Matrix -> Q -> Q -> Q -> Q -> point -> Q.

Lemma restroked_intro m pth bm :
  restroked stroke_coverage rect_coverage m pth
            (Stroked m pth :: bm) (Stroked m pth :: Stroked m pth :: bm).
Proof.
  intros p. split; [reflexivity|split].
  - apply restroke_full_or_none.
  - intros Hc Ha. rewrite restroke_alpha. apply stroke_again_deepens; assumption.
Qed.

End RedrawFacts.

Lemma sample_in_scaled_rect (r a b x y : Q) :
  0 <= a * r -> 0 <= b * r ->
  0 <= x -> x <= a * r -> 0 <= y -> y <= b * r ->
  within_rect (scale_by identity r r) 0 0 a b (x, y) = true.
Proof.
  intros Ha Hb Hx0 Hx1 Hy0 Hy1.
  assert (P1 : 0 <= x * (b * r)) by (apply Qmult_le_0_compat; assumption).
  assert (P2 : 0 <= (a * r - x) * (b * r))
    by (apply Qmult_le_0_compat; [lra|assumption]).
  assert (P3 : 0 <= (a * r) * y) by (apply Qmult_le_0_compat; assumption).
  assert (P4 : 0 <= (a * r) * (b * r - y))
    by (apply Qmult_le_0_compat; [assumption|lra]).
  unfold within_rect, between.
  apply orb_true_iff. left.
  rewrite !andb_true_iff, !Qle_bool_iff.
  unfold cross, minus, apply_matrix, scale_by, identity.
  cbn [fst snd m_a m_b m_c m_d m_e m_f].
  repeat split; ring_simplify; ring_simplify in P1; ring_simplify in P2;
    ring_simplify in P3; ring_simplify in P4; lra.
Qed.

Lemma sampled_rect_covers_a_pixel (r a b i j : Q) :
  0 <= a * r -> 0 <= b * r ->
  0 <= i -> i + 1 <= a * r -> 0 <= j -> j + 1 <= b * r ->
  sampled_rect (scale_by identity r r) 0 0 a b (i, j) == 1.
Proof.
  intros Ha Hb Hi0 Hi1 Hj0 Hj1.
  unfold sampled_rect, share, samples. cbn [fst snd filter].
  rewrite !sample_in_scaled_rect by (try assumption; lra).
  reflexivity.
Qed.

Lemma animated_startup_output vw vh r cv cx :
  context cv = Some cx ->
  sizer_output
    (host (final (protect Animated.script
                          (Animated.boot (load vw vh r (Some cv))))))
    (Animated.logical_size
       (final (protect Animated.script
                       (Animated.boot (load vw vh r (Some cv)))))) =
  Some (mk_output (reflect_dimension default_width (vw * r),
                   reflect_dimension default_height (vh * r))
                  (Some (px vw), Some (px vh))
                  (Some (scale_by identity r r)) (vw, vh)).
Proof.
  destruct cv as [cw ch sw sh bm o]. cbn [context]. intros ->. reflexivity.
Qed.

Lemma animated_session_sized vw vh r cv cx es :
  context cv = Some cx ->
  fits (vw * r) -> fits (vh * r) -> Forall (fits_at r) es ->
  exists a b,
    fits (a * r) /\ fits (b * r) /\
    sizer_output
      (host (final (Animated.session (load vw vh r (Some cv)) es)))
      (Animated.logical_size
         (final (Animated.session (load vw vh r (Some cv)) es))) =
    Some (mk_output (whole (a * r), whole (b * r))
                    (Some (px a), Some (px b))
                    (Some (scale_by identity r r)) (a, b)).
Proof.
  intros Hcx Fw Fh Hes.
  refine (proj2 (proj1 (page_invariant
            Animated.listener Animated.frame_callback
            (fun w => Animated.stable r w /\
               exists a b,
                 fits (a * r) /\ fits (b * r) /\
                 sizer_output (host w) (Animated.logical_size w) =
                 Some (mk_output (whole (a * r), whole (b * r))
                                 (Some (px a), Some (px b))
                                 (Some (scale_by identity r r)) (a, b)))
            (fun _ => True) (fits_at r)
            _ Animated.script es _ Hes _ (Forall_any _)))).
  - intros e w He [Hs (a & b & Fa & Fb & E)].
    split; [|apply Forall_any].
    split; [apply animated_deliver_stable; exact Hs|].
    destruct e as [a' b'|t|d].
    + destruct He as [Fa' Fb']. exists a', b'.
      split; [exact Fa'|]. split; [exact Fb'|].
      rewrite (animated_resize_output r a' b' w Hs).
      rewrite (reflect_fits _ _ Fa'), (reflect_fits _ _ Fb'). reflexivity.
    + exists a, b. split; [exact Fa|]. split; [exact Fb|].
      rewrite (animated_other_event_keeps_output r (Frame t) w Hs eq_refl).
      exact E.
    + exists a, b. split; [exact Fa|]. split; [exact Fb|].
      rewrite (animated_other_event_keeps_output r (DensityChange d) w Hs
                 eq_refl).
      exact E.
  - split; [apply (animated_startup_stable vw vh r cv cx Hcx)|].
    exists vw, vh. split; [exact Fw|]. split; [exact Fh|].
    rewrite (animated_startup_output vw vh r cv cx Hcx).
    rewrite (reflect_fits _ _ Fw), (reflect_fits _ _ Fh). reflexivity.
Qed.

Lemma animated_redraw_where_cleared
      (stroke_coverage : Matrix -> path -> point -> Q)
      (rect_coverage : Matrix -> Q -> Q -> Q -> Q -> point -> Q)
      (w : Animated.W) (m : Matrix) :
  Animated.ready w ->
  the_transform (host w) = Some m ->
  Animated.logical_size (final (Animated.draw w)) =
  Animated.logical_size w /\
  hd_error (actions (Animated.draw w)) =
  Some (ClearRect 0 0 (fst (Animated.logical_size w))
                  (snd (Animated.logical_size w))) /\
  (exists pth,
     painted (host (final (Animated.draw w))) =
     Stroked m pth
     :: Cleared m 0 0 (fst (Animated.logical_size w))
                (snd (Animated.logical_size w))
     :: painted (host w)) /\
  forall p,
    rect_coverage m 0 0 (fst (Animated.logical_size w))
                  (snd (Animated.logical_size w)) p == 1 ->
    alpha_at stroke_coverage rect_coverage
      (painted (host (final ((Animated.draw ;; Animated.draw) w)))) p ==
    alpha_at stroke_coverage rect_coverage
      (painted (host (final (Animated.draw w)))) p.
Proof.
  open_world w; unfold Animated.ready; cbn; intros (-> & -> & Hc) Hm;
    try discriminate.
  injection Hm as <-.
  split; [reflexivity|split; [reflexivity|split]].
  - eexists. reflexivity.
  - intros p. apply redraw_after_full_clear.
Qed.

Lemma animated_stable_is_ready r w :
  Animated.stable r w -> Animated.ready w.
Proof.
  intros (H1 & H2 & _ & _ & H3 & _). repeat split; assumption.
Qed.

Lemma animated_redraw_on_a_sized_surface
      (stroke_coverage : Matrix -> path -> point -> Q)
      (w : Animated.W) (r a b : Q) (sw sh : option css_length)
      (c : Canvas) (i j : Q) :
  Animated.ready w ->
  fits (a * r) -> fits (b * r) ->
  sizer_output (host w) (Animated.logical_size w) =
  Some (mk_output (whole (a * r), whole (b * r)) (sw, sh)
                  (Some (scale_by identity r r)) (a, b)) ->
  canvas (host w) = Some c ->
  0 <= i -> i + 1 <= width c -> 0 <= j -> j + 1 <= height c ->
  alpha_at stroke_coverage sampled_rect
    (painted (host (final ((Animated.draw ;; Animated.draw) w)))) (i, j) ==
  alpha_at stroke_coverage sampled_rect
    (painted (host (final (Animated.draw w)))) (i, j).
Proof.
  intros Hr Fa Fb E Hc Hi0 Hi1 Hj0 Hj1.
  unfold sizer_output in E. rewrite Hc in E.
  pose proof (f_equal (fun o => match o with
                                | Some s => viewport_state s
                                | None => (0, 0)
                                end) E) as Hs.
  pose proof (f_equal (fun o => match o with
                                | Some s => backing s
                                | None => (0, 0)
                                end) E) as Hb.
  pose proof (f_equal (fun o => match o with
                                | Some s => scaling s
                                | None => None
                                end) E) as Hm.
  cbn beta iota delta [viewport_state backing scaling] in Hs, Hb, Hm.
  assert (Ht : the_transform (host w) = Some (scale_by identity r r)).
  { unfold the_transform. rewrite Hc. exact Hm. }
  injection Hb as Ew Eh.
  rewrite Ew in Hi1. rewrite Eh in Hj1.
  pose proof (whole_below (a * r)). pose proof (whole_below (b * r)).
  apply (proj2 (proj2 (proj2
           (animated_redraw_where_cleared stroke_coverage sampled_rect
              w _ Hr Ht)))).
  rewrite Hs. cbn [fst snd].
  apply sampled_rect_covers_a_pixel;
    [apply Fa|apply Fb|assumption|lra|assumption|lra].
Qed.

(** C5: what running the Line Drawer twice leaves, the ViewportState being
    unchanged, against what running it once leaves, for every way the host
    has of covering pixels, [m] being the transform of the context.  The
    Drawer never changes the logical size.  The animated script first clears
    the rectangle from [(0, 0)] to the ViewportState, so wherever that
    covers a pixel wholly the pixel is the same after the second run as
    after the first.  The other two scripts do not clear: they composite
    the same stroke again, which leaves a pixel as it was where the stroke
    covers it wholly or not at all and makes it more opaque where the
    stroke covers it in part.  In a session of the animated script the
    cleared rectangle reaches over the whole bitmap, the canvas keeping the
    integer parts of the size the rectangle has in pixels: with a host that
    clears every sample of a pixel inside the rectangle, every pixel of the
    bitmap is the same after the second run as after the first, however the
    host covers pixels with strokes. *)
Theorem redrawing_clears_or_composites_again :
  forall (stroke_coverage : Matrix -> path -> point -> Q),
  (forall (rect_coverage : Matrix -> Q -> Q -> Q -> Q -> point -> Q),
     (forall (w : Animated.W) (m : Matrix),
        Animated.ready w ->
        the_transform (host w) = Some m ->
        Animated.logical_size (final (Animated.draw w)) =
        Animated.logical_size w /\
        hd_error (actions (Animated.draw w)) =
        Some (ClearRect 0 0 (fst (Animated.logical_size w))
                        (snd (Animated.logical_size w))) /\
        (exists pth,
           painted (host (final (Animated.draw w))) =
           Stroked m pth
           :: Cleared m 0 0 (fst (Animated.logical_size w))
                      (snd (Animated.logical_size w))
           :: painted (host w)) /\
        forall p,
          rect_coverage m 0 0 (fst (Animated.logical_size w))
                        (snd (Animated.logical_size w)) p == 1 ->
          alpha_at stroke_coverage rect_coverage
            (painted (host (final ((Animated.draw ;; Animated.draw) w)))) p
          ==
          alpha_at stroke_coverage rect_coverage
            (painted (host (final (Animated.draw w)))) p) /\
     (forall (w : Static.W) (m : Matrix),
        Static.ready w ->
        the_transform (host w) = Some m ->
        Static.logical_size (final (Static.draw w)) =
        Static.logical_size w /\
        exists pth,
          painted (host (final (Static.draw w))) =
          Stroked m pth :: painted (host w) /\
          restroked stroke_coverage rect_coverage m pth
            (painted (host (final (Static.draw w))))
            (painted (host (final ((Static.draw ;; Static.draw) w))))) /\
     (forall (w : Basic.W) (m : Matrix),
        Basic.ready w ->
        the_transform (host w) = Some m ->
        Basic.logical_size (final (Basic.stroke_diagonal w)) =
        Basic.logical_size w /\
        exists pth,
          painted (host (final (Basic.stroke_diagonal w))) =
          Stroked m pth :: painted (host w) /\
          restroked stroke_coverage rect_coverage m pth
            (painted (host (final (Basic.stroke_diagonal w))))
            (painted (host (final
               ((Basic.stroke_diagonal ;; Basic.stroke_diagonal) w)))))) /\
  (forall vw vh r cv cx es c i j,
     context cv = Some cx ->
     fits (vw * r) -> fits (vh * r) -> Forall (fits_at r) es ->
     canvas (host (final (Animated.session (load vw vh r (Some cv)) es))) =
     Some c ->
     0 <= i -> i + 1 <= width c -> 0 <= j -> j + 1 <= height c ->
     alpha_at stroke_coverage sampled_rect
       (painted (host (final
          ((Animated.draw ;; Animated.draw)
             (final (Animated.session (load vw vh r (Some cv)) es))))))
       (i, j) ==
     alpha_at stroke_coverage sampled_rect
       (painted (host (final
          (Animated.draw
             (final (Animated.session (load vw vh r (Some cv)) es))))))
       (i, j)).
Proof.
  intros stroke_coverage. split.
  - intros rect_coverage. split; [|split]; intros w m.
    + apply animated_redraw_where_cleared.
    + open_world w; unfold Static.ready; cbn; intros (-> & -> & Hc) Hm;
        try discriminate.
      injection Hm as <-.
      split; [reflexivity|].
      eexists. split; [reflexivity|].
      apply restroked_intro.
    + open_world w; unfold Basic.ready; cbn; intros (-> & -> & Hc) Hm;
        try discriminate.
      injection Hm as <-.
      split; [reflexivity|].
      eexists. split; [reflexivity|].
      apply restroked_intro.
  - intros vw vh r cv cx es c i j Hcx Fw Fh Hes Hc Hi0 Hi1 Hj0 Hj1.
    destruct (animated_session_sized vw vh r cv cx es Hcx Fw Fh Hes)
      as (a & b & Fa & Fb & E).
    apply (animated_redraw_on_a_sized_surface stroke_coverage _ r a b
             (Some (px a)) (Some (px b)) c i j
             (animated_stable_is_ready r _
                (animated_session_stable vw vh r cv cx es Hcx))
             Fa Fb E Hc Hi0 Hi1 Hj0 Hj1).
Qed.

Lemma redrawing_clears_or_composites_again_witness :
  alpha_at sampled_stroke sampled_rect
    (painted (host (final
       ((Animated.draw ;; Animated.draw)
          (final (Animated.session
                    (load 800 600 (5 # 4)
                          (Some (blank_canvas (Some default_context))))
                    [Frame 16; Resize 801 601; Frame 33]))))))
    (1000, 749) ==
  alpha_at sampled_stroke sampled_rect
    (painted (host (final
       (Animated.draw
          (final (Animated.session
                    (load 800 600 (5 # 4)
                          (Some (blank_canvas (Some default_context))))
                    [Frame 16; Resize 801 601; Frame 33]))))))
    (1000, 749) /\
  exists pth,
    painted (host (final
      (Static.draw
         (final (Static.resize
            (final (Static.session
                      (load 800 600 2
                            (Some (blank_canvas (Some default_context))))
                      []))))))) =
    Stroked (scale_by identity 2 2) pth
    :: painted (host (final (Static.resize
                 (final (Static.session
                           (load 800 600 2
                                 (Some (blank_canvas (Some default_context))))
                           []))))) /\
    restroked sampled_stroke sampled_rect (scale_by identity 2 2) pth
      (painted (host (final
         (Static.draw
            (final (Static.resize
               (final (Static.session
                         (load 800 600 2
                               (Some (blank_canvas (Some default_context))))
                         []))))))))
      (painted (host (final
         ((Static.draw ;; Static.draw)
            (final (Static.resize
               (final (Static.session
                         (load 800 600 2
                               (Some (blank_canvas (Some default_context))))
                         [])))))))).
Proof.
  split.
  - refine (proj2 (redrawing_clears_or_composites_again sampled_stroke)
              800 600 (5 # 4) (blank_canvas (Some default_context))
              default_context [Frame 16; Resize 801 601; Frame 33]
              _ 1000 749 eq_refl _ _ _ _ _ _ _ _).
    + split; [lra|vm_compute; discriminate].
    + split; [lra|vm_compute; discriminate].
    + repeat constructor; try lra; vm_compute; discriminate.
    + vm_compute. reflexivity.
    + lra.
    + vm_compute. discriminate.
    + lra.
    + vm_compute. discriminate.
  - refine (proj2 (proj1 (proj2
              (proj1 (redrawing_clears_or_composites_again sampled_stroke)
                     sampled_rect))
              _ (scale_by identity 2 2) _ _)).
    + repeat split.
    + vm_compute. reflexivity.
Defined.

(** The static script on a display of 800 x 600 at density ratio 2, its
    surface freshly sized: with four samples to a pixel the stroke covers a
    quarter of the pixel (10, 6), which a first run of the Drawer leaves at
    opacity 1/4 and a second run at 7/16. *)
Lemma fresh_surface_stroked_once :
  alpha_at sampled_stroke sampled_rect
    (painted (host (final
       (Static.draw
          (final (Static.resize
             (final (Static.session
                       (load 800 600 2
                             (Some (blank_canvas (Some default_context))))
                       [])))))))) (10, 6) == 1 # 4.
Proof. vm_compute. reflexivity. Qed.

Lemma fresh_surface_stroked_twice :
  alpha_at sampled_stroke sampled_rect
    (painted (host (final
       ((Static.draw ;; Static.draw)
          (final (Static.resize
             (final (Static.session
                       (load 800 600 2
                             (Some (blank_canvas (Some default_context))))
                       [])))))))) (10, 6) == 7 # 16.
Proof. vm_compute. reflexivity. Qed.

Lemma restroke_deepens_an_edge_pixel :
  ~ same_picture sampled_stroke sampled_rect
      (canvas (host (final
         ((Static.draw ;; Static.draw)
            (final (Static.resize
               (final (Static.session
                         (load 800 600 2
                               (Some (blank_canvas (Some default_context))))
                         []))))))))
      (canvas (host (final
         (Static.draw
            (final (Static.resize
               (final (Static.session
                         (load 800 600 2
                               (Some (blank_canvas (Some default_context))))
                         [])))))))).
Proof.
  intros H.
  pose proof (same_picture_alpha sampled_stroke sampled_rect _ _ H (10, 6))
    as E.
  rewrite fresh_surface_stroked_once, fresh_surface_stroked_twice in E.
  discriminate E.
Qed.

(** ** A canvas without a context *)

Section CountFacts.
Context {L F G : Type}.
Variable listener : L -> M (World L F G) unit.
Variable frame_callback : F -> Q -> M (World L F G) unit.
Variable Inv : World L F G -> Prop.
Variable p : action -> bool.

Hypothesis deliver_counts :
  forall e w, Inv w ->
    Inv (final (deliver listener frame_callback e w)) /\
    count p (actions (deliver listener frame_callback e w)) =
    (if is_resize e then 1 else 0)%nat.

Lemma deliver_all_counts es :
  forall w, Inv w ->
    Inv (final (deliver_all listener frame_callback es w)) /\
    count p (actions (deliver_all listener frame_callback es w)) =
    resizes es.
Proof.
  induction es as [|e es IH]; intros w H; [split; [exact H|reflexivity]|].
  rewrite final_deliver_all_cons, actions_deliver_all_cons, count_app.
  destruct (deliver_counts e w H) as [Hi ->].
  destruct (IH _ Hi) as [Hi' ->].
  split; [exact Hi'|]. destruct e; reflexivity.
Qed.

End CountFacts.

Lemma basic_startup_broken vw vh r cv :
  context cv = None ->
  Basic.broken 
    (final (protect Basic.script (Basic.boot (load vw vh r (Some cv))))) /\
  count is_fault
        (actions (protect Basic.script
                          (Basic.boot (load vw vh r (Some cv))))) = 1%nat.
Proof.
  destruct cv as [cw ch sw sh bm o]. cbn [context]. intros ->.
  unfold Basic.broken. split; [evaluate; tauto|reflexivity].
Qed.

Lemma basic_deliver_broken  e w :
  Basic.broken  w ->
  Basic.broken 
    (final (deliver Basic.listener Basic.frame_callback e w)) /\
  count is_fault
        (actions (deliver Basic.listener Basic.frame_callback e w)) =
  (if is_resize e then 1 else 0)%nat.
Proof.
  intros H.
  destruct w as [[vw vh dpr [[cw ch sw sh bm o]|] ls fs] g]; destruct g;
    unfold Basic.broken in H; cbn in H;
    [|exfalso; tauto].
  destruct H as (-> & -> & Ho & -> & ->).
  subst. unfold Basic.broken.
  destruct e as [a b|t|d]; (split; [evaluate; tauto|reflexivity]).
Qed.

Lemma animated_startup_broken vw vh r cv :
  context cv = None ->
  Animated.broken r
    (final (protect Animated.script (Animated.boot (load vw vh r (Some cv))))) /\
  count is_fault
        (actions (protect Animated.script
                          (Animated.boot (load vw vh r (Some cv))))) = 1%nat.
Proof.
  destruct cv as [cw ch sw sh bm o]. cbn [context]. intros ->.
  unfold Animated.broken. split; [evaluate; tauto|reflexivity].
Qed.

Lemma animated_deliver_broken r e w :
  Animated.broken r w ->
  Animated.broken r
    (final (deliver Animated.listener Animated.frame_callback e w)) /\
  count is_fault
        (actions (deliver Animated.listener Animated.frame_callback e w)) =
  (if is_resize e then 1 else 0)%nat.
Proof.
  intros H.
  destruct w as [[vw vh dpr [[cw ch sw sh bm o]|] ls fs] g]; destruct g;
    unfold Animated.broken in H; cbn in H;
    [|exfalso; tauto].
  destruct H as (-> & -> & -> & -> & Ho & -> & ->).
  subst. unfold Animated.broken.
  destruct e as [a b|t|d]; (split; [evaluate; tauto|reflexivity]).
Qed.

Lemma static_startup_broken vw vh r cv :
  context cv = None ->
  Static.broken r
    (final (protect Static.script (Static.boot (load vw vh r (Some cv))))) /\
  count is_fault
        (actions (protect Static.script
                          (Static.boot (load vw vh r (Some cv))))) = 1%nat.
Proof.
  destruct cv as [cw ch sw sh bm o]. cbn [context]. intros ->.
  unfold Static.broken. split; [evaluate; tauto|reflexivity].
Qed.

Lemma static_deliver_broken r e w :
  Static.broken r w ->
  Static.broken r
    (final (deliver Static.listener Static.frame_callback e w)) /\
  count is_fault
        (actions (deliver Static.listener Static.frame_callback e w)) =
  (if is_resize e then 1 else 0)%nat.
Proof.
  intros H.
  destruct w as [[vw vh dpr [[cw ch sw sh bm o]|] ls fs] g]; destruct g;
    unfold Static.broken in H; cbn in H;
    [|exfalso; tauto].
  destruct H as (-> & -> & -> & -> & Ho & -> & ->).
  subst. unfold Static.broken.
  destruct e as [a b|t|d]; (split; [evaluate; tauto|reflexivity]).
Qed.

(** X9: when the document has a canvas but no 2D context can be obtained
    from it, every script has registered its resize listener before it
    faults, so the listener runs, and faults again, on every resize
    notification: a session has one fault for the script and one for each
    notification, and none for a frame or a change of density. *)
Theorem every_resize_faults_without_a_context :
  forall vw vh r cv es,
    context cv = None ->
    count is_fault (actions (Basic.session (load vw vh r (Some cv)) es)) =
    S (resizes es) /\
    count is_fault (actions (Animated.session (load vw vh r (Some cv)) es)) =
    S (resizes es) /\
    count is_fault (actions (Static.session (load vw vh r (Some cv)) es)) =
    S (resizes es).
Proof.
  intros vw vh r cv es H.
  destruct (basic_startup_broken vw vh r cv H) as [Bi Bc].
  destruct (animated_startup_broken vw vh r cv H) as [Ai Ac].
  destruct (static_startup_broken vw vh r cv H) as [Si Sc].
  rewrite !actions_page, !count_app, Bc, Ac, Sc.
  destruct (deliver_all_counts Basic.listener Basic.frame_callback
              Basic.broken is_fault basic_deliver_broken es _ Bi) as [_ ->].
  destruct (deliver_all_counts Animated.listener Animated.frame_callback
              (Animated.broken r) is_fault (animated_deliver_broken r)
              es _ Ai) as [_ ->].
  destruct (deliver_all_counts Static.listener Static.frame_callback
              (Static.broken r) is_fault (static_deliver_broken r)
              es _ Si) as [_ ->].
  repeat split.
Qed.

Lemma every_resize_faults_without_a_context_witness :
  count is_fault
    (actions (Static.session (load 800 600 2 (Some (blank_canvas None)))
                             [Resize 1024 768; Frame 16; Resize 640 480])) =
  3%nat.
Proof.
  apply (proj2 (proj2 (every_resize_faults_without_a_context 800 600 2
                         (blank_canvas None)
                         [Resize 1024 768; Frame 16; Resize 640 480]
                         eq_refl))).
Defined.






(** ** A document without a canvas *)

Section IdleFacts.
Context {L F G : Type}.
Variable listener : L -> M (World L F G) unit.
Variable frame_callback : F -> Q -> M (World L F G) unit.

Lemma idle_deliver e w :
  resize_listeners (host w) = [] /\ frame_requests (host w) = [] ->
  (resize_listeners (host (final (deliver listener frame_callback e w))) = []
   /\
   frame_requests (host (final (deliver listener frame_callback e w))) = [])
  /\
  actions (deliver listener frame_callback e w) = [Deliver e] /\
  globals (final (deliver listener frame_callback e w)) = globals w.
Proof.
  intros [Hl Hf]. destruct w as [[vw vh dpr cv ls fs] g]. cbn in Hl, Hf.
  subst. destruct e; repeat split.
Qed.

Lemma idle_deliver_all es :
  forall w,
    resize_listeners (host w) = [] /\ frame_requests (host w) = [] ->
    actions (deliver_all listener frame_callback es w) = map Deliver es /\
    globals (final (deliver_all listener frame_callback es w)) = globals w.
Proof.
  induction es as [|e es IH]; intros w H; [split; reflexivity|].
  rewrite actions_deliver_all_cons, final_deliver_all_cons.
  destruct (idle_deliver e w H) as (Hi & -> & Hg).
  destruct (IH _ Hi) as [-> ->]. split; [reflexivity|exact Hg].
Qed.

End IdleFacts.

(** X11: when the document has no canvas, each script faults at
    [canvas.getContext] before it registers anything: the session consists
    of the query, the fault and the bare deliveries of the events, and no
    function of the script ever runs. *)
Theorem nothing_runs_without_a_canvas :
  forall vw vh r es,
    actions (Basic.session (load vw vh r None) es) =
    [QuerySelector "canvas"; Init "canvas"; Uncaught TypeError]
    ++ map Deliver es /\
    actions (Animated.session (load vw vh r None) es) =
    [QuerySelector "canvas"; Init "canvas"; Uncaught TypeError]
    ++ map Deliver es /\
    actions (Static.session (load vw vh r None) es) =
    [QuerySelector "canvas"; Init "canvas"; Uncaught TypeError]
    ++ map Deliver es.
Proof.
  intros vw vh r es. rewrite !actions_page.
  assert (Hb : let w := final (protect Basic.script
                                       (Basic.boot (load vw vh r None))) in
               resize_listeners (host w) = [] /\
               frame_requests (host w) = []) by (split; reflexivity).
  assert (Ha : let w := final (protect Animated.script
                                       (Animated.boot (load vw vh r None))) in
               resize_listeners (host w) = [] /\
               frame_requests (host w) = []) by (split; reflexivity).
  assert (Hs : let w := final (protect Static.script
                                       (Static.boot (load vw vh r None))) in
               resize_listeners (host w) = [] /\
               frame_requests (host w) = []) by (split; reflexivity).
  rewrite (proj1 (idle_deliver_all Basic.listener Basic.frame_callback
                    es _ Hb)).
  rewrite (proj1 (idle_deliver_all Animated.listener Animated.frame_callback
                    es _ Ha)).
  rewrite (proj1 (idle_deliver_all Static.listener Static.frame_callback
                    es _ Hs)).
  repeat split.
Qed.

(** ** The first script and the density ratio *)

Lemma basic_listener_blind l d w :
  final (protect (Basic.listener l) (on_host (set_density d) w)) =
  on_host (set_density d) (final (protect (Basic.listener l) w)).
Proof.
  open_any w; destruct l; reflexivity.
Qed.

Lemma basic_startup_blind vw vh r1 r2 cv :
  final (protect Basic.script (Basic.boot (load vw vh r1 cv))) =
  on_host (set_density r1)
          (final (protect Basic.script (Basic.boot (load vw vh r2 cv)))).
Proof.
  destruct cv as [[cw ch sw sh bm [cx|]]|]; reflexivity.
Qed.

Lemma basic_listener_reads_no_ratio l w :
  Forall (fun s => is_density_read (fst s) = false)
         (steps (protect (Basic.listener l) w)).
Proof.
  open_any w; destruct l; evaluate; plain_steps.
Qed.

Lemma basic_startup_reads_no_ratio vw vh r cv :
  Forall (fun s => is_density_read (fst s) = false)
         (steps (protect Basic.script (Basic.boot (load vw vh r cv)))).
Proof.
  destruct cv as [[cw ch sw sh bm [cx|]]|]; evaluate; plain_steps.
Qed.

(** X12: the first script never reads the density ratio: on any document,
    a session has no read of [window.devicePixelRatio], and two sessions
    on displays of different ratios, whose events differ only in the
    changes of density, leave the same Sizer outputs at every resize
    notification. *)
Theorem basic_script_ignores_the_density :
  forall vw vh r1 r2 cv es1 es2,
    erase_density es1 = erase_density es2 ->
    session_outputs Basic.listener Basic.frame_callback Basic.logical_size
      Basic.script (Basic.boot (load vw vh r1 cv)) es1 =
    session_outputs Basic.listener Basic.frame_callback Basic.logical_size
      Basic.script (Basic.boot (load vw vh r2 cv)) es2 /\
    count is_density_read
          (actions (Basic.session (load vw vh r1 cv) es1)) = 0%nat.
Proof.
  intros vw vh r1 r2 cv es1 es2 H. split.
  - unfold session_outputs.
    rewrite (basic_startup_blind vw vh r1 r2 cv).
    rewrite (outputs_blind Basic.listener Basic.frame_callback
               Basic.logical_size basic_listener_blind
               (fun f => match f with end)
               (fun d w => match w with mk_world (mk_host _ _ _ _ _ _) _ =>
                                          eq_refl end)).
    rewrite (outputs_erased Basic.listener Basic.frame_callback
               Basic.logical_size basic_listener_blind
               (fun f => match f with end)
               (fun d w => match w with mk_world (mk_host _ _ _ _ _ _) _ =>
                                          eq_refl end) es2).
    rewrite H. reflexivity.
  - apply count_none.
    apply (page_invariant Basic.listener Basic.frame_callback
             (fun _ => True) (fun s => is_density_read (fst s) = false)
             (fun _ => True)
             (fun e w _ =>
                deliver_from_tasks Basic.listener Basic.frame_callback
                  (fun _ => True)
                  (fun s => is_density_read (fst s) = false)
                  (fun _ _ H => H) (fun _ _ => eq_refl)
                  (fun l x _ => conj I (basic_listener_reads_no_ratio l x))
                  (fun t f => match f with end) e w)
             Basic.script es1 _ (Forall_any es1) I
             (basic_startup_reads_no_ratio vw vh r1 cv)).
Qed.

Lemma basic_script_ignores_the_density_witness :
  session_outputs Basic.listener Basic.frame_callback Basic.logical_size
    Basic.script
    (Basic.boot (load 800 600 1 (Some (blank_canvas (Some default_context)))))
    [Resize 1024 768; DensityChange 3; Resize 640 480] =
  session_outputs Basic.listener Basic.frame_callback Basic.logical_size
    Basic.script
    (Basic.boot (load 800 600 2 (Some (blank_canvas (Some default_context)))))
    [DensityChange 5; Resize 1024 768; Resize 640 480].
Proof.
  apply (proj1 (basic_script_ignores_the_density 800 600 1 2
                  (Some (blank_canvas (Some default_context)))
                  [Resize 1024 768; DensityChange 3; Resize 640 480]
                  [DensityChange 5; Resize 1024 768; Resize 640 480]
                  eq_refl)).
Defined.

(** ** Timestamps that go back *)

Lemma deltas_at (pre post : list Q) (t1 t2 : Q) :
  nth_error (deltas (pre ++ t1 :: t2 :: post)) (List.length pre) =
  Some (t2 - t1).
Proof.
  induction pre as [|a pre IH]; [reflexivity|].
  destruct pre as [|b pre]; [reflexivity|].
  exact IH.
Qed.

(** X13: the animated script neither clamps nor skips: wherever in a
    session the timestamp [t2] of a frame is smaller than the timestamp
    [t1] of the frame before it, whatever other events come between the
    two, [update] is called in that frame with their negative difference
    [t2 - t1]. *)
Theorem a_frame_from_the_past_gives_a_negative_dt :
  forall vw vh r cv cx es pre t1 t2 post,
    context cv = Some cx ->
    frame_times es = pre ++ t1 :: t2 :: post ->
    t2 < t1 ->
    nth_error
      (dt_of_each_frame Animated.listener Animated.frame_callback es
         (final (Animated.session (load vw vh r (Some cv)) [])))
      (S (List.length pre)) = Some (Some (t2 - t1)) /\
    t2 - t1 < 0.
Proof.
  intros vw vh r cv cx es pre t1 t2 post Hcx Hes Hlt.
  rewrite final_page_nil.
  rewrite (priming_dts r _ _ (animated_startup_priming vw vh r cv cx Hcx)).
  split; [|lra].
  rewrite Hes.
  pose proof (deltas_at pre post t1 t2) as E.
  destruct (pre ++ t1 :: t2 :: post) as [|t0 ts] eqn:El.
  - destruct pre; discriminate El.
  - change (nth_error (map Some (deltas (t0 :: ts))) (List.length pre) =
            Some (Some (t2 - t1))).
    rewrite nth_error_map, E. reflexivity.
Qed.

Lemma a_frame_from_the_past_gives_a_negative_dt_witness :
  nth_error
    (dt_of_each_frame Animated.listener Animated.frame_callback
       [Frame 10; Resize 640 480; Frame 50; DensityChange 3; Frame 33;
        Frame 40]
       (final (Animated.session
                 (load 800 600 2 (Some (blank_canvas (Some default_context))))
                 [])))
    (S (List.length [10])) = Some (Some (33 - 50)) /\
  33 - 50 < 0.
Proof.
  apply (a_frame_from_the_past_gives_a_negative_dt 800 600 2
           (blank_canvas (Some default_context)) default_context
           [Frame 10; Resize 640 480; Frame 50; DensityChange 3; Frame 33;
            Frame 40]
           [10] 50 33 [40] eq_refl eq_refl).
  reflexivity.
Defined.
